(** * playwright-codegen: the event normaliser and script renderer

    A shallow embedding of the [Codegen] class (event log, merge rules of
    [consume], renderer [parse], debounced [write], the recording gate and
    the browser API installed by [install]), followed by the properties
    proved about it. *)

From Stdlib Require Import List String Ascii Bool Arith ZArith Lia DecimalString
  DecimalNat.
Import ListNotations.
Local Open Scope string_scope.
Local Open Scope list_scope.

Set Implicit Arguments.

(** ** The host platform

    What the class takes from JavaScript and from Playwright and does not
    define itself: the [number] type with its [+], its [===] and its
    conversion inside a template literal, [Buffer], Playwright's
    [PageScreenshotOptions] with [JSON.stringify], and the [prettier]
    command run through [execSync] ([None] when the command fails). *)

Class Host : Type := {
  number : Type;
  number_add : number -> number -> number;
  number_strict_eq : number -> number -> bool;
  number_show : number -> string;
  Buffer : Type;
  PageScreenshotOptions : Type;
  options_clip : PageScreenshotOptions -> bool;
  JSON_stringify : PageScreenshotOptions -> string;
  prettier : string -> option string
}.

(** ** JavaScript arrays, as lists in index order *)

Module JsArray.

Definition length_ {A} (a : list A) : Z := Z.of_nat (List.length a).

(** [a[i]]: [undefined] out of range, in particular at a negative index. *)
Definition at_ {A} (a : list A) (i : Z) : option A :=
  if (i <? 0)%Z then None else nth_error a (Z.to_nat i).

Definition push {A} (a : list A) (v : A) : list A := a ++ [v].

(** [a.pop()]: the removed element ([undefined] on an empty array) and the
    array afterwards. *)
Definition pop {A} (a : list A) : option A * list A :=
  (at_ a (length_ a - 1), removelast a).

(** [new Array(n).fill(v)] *)
Definition fill {A} (n : nat) (v : A) : list A := repeat v n.

End JsArray.
Import JsArray.

(** ** Strings: the pieces of [String.prototype] and lodash in use *)

Definition is_lower (c : ascii) : bool :=
  ((97 <=? nat_of_ascii c) && (nat_of_ascii c <=? 122))%nat.

Definition is_upper (c : ascii) : bool :=
  ((65 <=? nat_of_ascii c) && (nat_of_ascii c <=? 90))%nat.

Definition upper_ascii (c : ascii) : ascii :=
  if is_lower c then ascii_of_nat (nat_of_ascii c - 32) else c.

Definition lower_ascii (c : ascii) : ascii :=
  if is_upper c then ascii_of_nat (nat_of_ascii c + 32) else c.

Fixpoint lower_string (s : string) : string :=
  match s with
  | EmptyString => EmptyString
  | String c r => String (lower_ascii c) (lower_string r)
  end.

(** lodash [capitalize]: first character upper case, the rest lower case
    (on ASCII letters, which is all it is applied to). *)
Definition capitalize (s : string) : string :=
  match s with
  | EmptyString => EmptyString
  | String c r => String (upper_ascii c) (lower_string r)
  end.

Fixpoint drop_chars (n : nat) (s : string) : string :=
  match n, s with
  | O, _ => s
  | S _, EmptyString => EmptyString
  | S m, String _ r => drop_chars m r
  end.

(** [s.replace(pat, "")] with a string pattern: the first occurrence goes. *)
Fixpoint replace_first_by_empty (pat s : string) : string :=
  if prefix pat s then drop_chars (String.length pat) s
  else match s with
       | EmptyString => EmptyString
       | String c r => String c (replace_first_by_empty pat r)
       end.

(** ** Event data *)

Inductive Which : Type := which_start | which_end.

Inductive MouseEventType : Type := mousedown | mousemove | mouseup | dblclick.

Inductive KeyboardEventType : Type := keydown | keyup.

(** [Partial<EventModifiers>]: the page only sends the flags that are set, and
    every reader tests them for truthiness, so an absent flag is [false]. *)
Record EventModifiers : Type := {
  shiftKey : bool;
  ctrlKey : bool;
  altKey : bool;
  metaKey : bool
}.

Definition no_modifiers : EventModifiers :=
  {| shiftKey := false; ctrlKey := false; altKey := false; metaKey := false |}.

Section Engine.

Context {H : Host}.

Record BasicMouseEventData : Type := {
  x : number;
  y : number;
  handle : string;
  mouse_modifiers : EventModifiers
}.

Record BasicKeyboardEventData : Type := {
  key : string;
  key_modifiers : EventModifiers
}.

Record ScreenshotEventData : Type := {
  shot_handle : string;
  screenshot : Buffer;
  shot_name : string;
  options : option PageScreenshotOptions
}.

(** [EventMap[keyof EventMap]]: what a listener receives. *)
Inductive RawEvent : Type :=
| RawMouse (t : MouseEventType) (d : BasicMouseEventData)
| RawWheel (d : BasicMouseEventData) (deltaX deltaY : number)
| RawKeyboard (t : KeyboardEventType) (d : BasicKeyboardEventData)
| RawScreenshot (d : ScreenshotEventData)
| RawStep (which : Which) (name : option string)
| RawComment (value : string)
| RawNavigation (url : string).

(** [ConsumedEventData]: what the log [events] holds.  [steps] of a
    mousemove is optional, as in the source. *)
Inductive ConsumedEventData : Type :=
| EMouseDown (d : BasicMouseEventData)
| EMouseMove (d : BasicMouseEventData) (steps : option nat)
| EMouseUp (d : BasicMouseEventData)
| EDblClick (d : BasicMouseEventData)
| EClick (d : BasicMouseEventData)
| EWheel (d : BasicMouseEventData) (deltaX deltaY : number)
| EKeyDown (d : BasicKeyboardEventData)
| EKeyUp (d : BasicKeyboardEventData)
| EKeyPress (d : BasicKeyboardEventData)
| EScreenshot (d : ScreenshotEventData)
| EStep (which : Which) (name : option string)
| EComment (value : string)
| ENavigation (url : string).

(** The [type] field of a log entry. *)
Inductive EventType : Type :=
| Tmousedown | Tmousemove | Tmouseup | Tdblclick | Tclick | Twheel
| Tkeydown | Tkeyup | Tkeypress | Tscreenshot | Tstep | Tcomment
| Tnavigation.

Definition type_of (e : ConsumedEventData) : EventType :=
  match e with
  | EMouseDown _ => Tmousedown
  | EMouseMove _ _ => Tmousemove
  | EMouseUp _ => Tmouseup
  | EDblClick _ => Tdblclick
  | EClick _ => Tclick
  | EWheel _ _ _ => Twheel
  | EKeyDown _ => Tkeydown
  | EKeyUp _ => Tkeyup
  | EKeyPress _ => Tkeypress
  | EScreenshot _ => Tscreenshot
  | EStep _ _ => Tstep
  | EComment _ => Tcomment
  | ENavigation _ => Tnavigation
  end.

(** [this.events.push(ev)]: a raw event stored in the log as it is. *)
Definition as_consumed (ev : RawEvent) : ConsumedEventData :=
  match ev with
  | RawMouse mousedown d => EMouseDown d
  | RawMouse mousemove d => EMouseMove d None
  | RawMouse mouseup d => EMouseUp d
  | RawMouse dblclick d => EDblClick d
  | RawWheel d dx dy => EWheel d dx dy
  | RawKeyboard keydown d => EKeyDown d
  | RawKeyboard keyup d => EKeyUp d
  | RawScreenshot d => EScreenshot d
  | RawStep w n => EStep w n
  | RawComment v => EComment v
  | RawNavigation u => ENavigation u
  end.

(** [getCodegenKey] *)
Definition getCodegenKey (ev : BasicKeyboardEventData) : string :=
  let m := key_modifiers ev in
  let entries :=
    [("altKey", altKey m); ("ctrlKey", ctrlKey m);
     ("metaKey", metaKey m); ("shiftKey", shiftKey m)] in
  String.concat "+"
    (filter (fun val => negb (val =? "") && negb (val =? key ev))
       (map (fun kv : string * bool =>
               if snd kv then capitalize (replace_first_by_empty "Key" (fst kv))
               else "")
            entries)
     ++ [key ev]).

(** [name || "step"]: [undefined] and the empty string are falsy. *)
Definition name_or_step (name : option string) : string :=
  match name with
  | Some n => if n =? "" then "step" else n
  | None => "step"
  end.

(** [const { steps = 0 } = ...]: the default of an absent [steps]. *)
Definition steps_default (st : option nat) : nat :=
  match st with
  | Some n => n
  | None => 0
  end.

(** ** The recorder's state

    The fields of [Codegen], then what it keeps outside the object: the
    contents of [this.file], whether the debounced [write] is armed, and the
    snapshot files written by the screenshot listener. *)
Record Codegen : Type := {
  events : list ConsumedEventData;
  recording : bool;
  down : bool;
  steps : list string;
  counter : nat;
  title : string;
  file_content : string;
  write_pending : bool;
  snapshots : list (string * Buffer)
}.

Definition set_events (s : Codegen) (v : list ConsumedEventData) : Codegen :=
  {| events := v; recording := recording s; down := down s; steps := steps s;
     counter := counter s; title := title s; file_content := file_content s;
     write_pending := write_pending s; snapshots := snapshots s |}.

Definition set_recording (s : Codegen) (v : bool) : Codegen :=
  {| events := events s; recording := v; down := down s; steps := steps s;
     counter := counter s; title := title s; file_content := file_content s;
     write_pending := write_pending s; snapshots := snapshots s |}.

Definition set_down (s : Codegen) (v : bool) : Codegen :=
  {| events := events s; recording := recording s; down := v; steps := steps s;
     counter := counter s; title := title s; file_content := file_content s;
     write_pending := write_pending s; snapshots := snapshots s |}.

Definition set_steps (s : Codegen) (v : list string) : Codegen :=
  {| events := events s; recording := recording s; down := down s; steps := v;
     counter := counter s; title := title s; file_content := file_content s;
     write_pending := write_pending s; snapshots := snapshots s |}.

Definition set_counter (s : Codegen) (v : nat) : Codegen :=
  {| events := events s; recording := recording s; down := down s;
     steps := steps s; counter := v; title := title s;
     file_content := file_content s; write_pending := write_pending s;
     snapshots := snapshots s |}.

Definition set_file_content (s : Codegen) (v : string) : Codegen :=
  {| events := events s; recording := recording s; down := down s;
     steps := steps s; counter := counter s; title := title s;
     file_content := v; write_pending := write_pending s;
     snapshots := snapshots s |}.

Definition set_write_pending (s : Codegen) (v : bool) : Codegen :=
  {| events := events s; recording := recording s; down := down s;
     steps := steps s; counter := counter s; title := title s;
     file_content := file_content s; write_pending := v;
     snapshots := snapshots s |}.

Definition set_snapshots (s : Codegen) (v : list (string * Buffer)) : Codegen :=
  {| events := events s; recording := recording s; down := down s;
     steps := steps s; counter := counter s; title := title s;
     file_content := file_content s; write_pending := write_pending s;
     snapshots := v |}.

(** [new Codegen(testInfo)]: [ensureFileSync] keeps what the file holds. *)
Definition new_Codegen (test_title existing_file : string) : Codegen :=
  {| events := []; recording := false; down := false; steps := [];
     counter := 0; title := test_title; file_content := existing_file;
     write_pending := false; snapshots := [] |}.

(** ** [consume]

    The three stages of the method in source order.  A stage either returns
    from the method ([Return]) or falls through to the next one ([Next]);
    the state travels along because [this.steps.pop()] has taken effect when
    the method returns [false] after it. *)
Inductive Flow : Type :=
| Return (result : bool) (s : Codegen)
| Next (s : Codegen).

Definition and_then (f : Flow) (k : Codegen -> Flow) : Flow :=
  match f with
  | Return b s => Return b s
  | Next s => k s
  end.

(** [if (mousedown) down = true; else if (mouseup) down = false;
     else if (mousemove && !down) return false;] *)
Definition track_button (s : Codegen) (ev : RawEvent) : Flow :=
  match ev with
  | RawMouse mousedown _ => Next (set_down s true)
  | RawMouse mouseup _ => Next (set_down s false)
  | RawMouse mousemove _ => if negb (down s) then Return false s else Next s
  | _ => Next s
  end.

(** [if (step start) steps.push(name || "step");
     else if (step end && !steps.pop()) return false;] *)
Definition track_steps (s : Codegen) (ev : RawEvent) : Flow :=
  match ev with
  | RawStep which_start name => Next (set_steps s (push (steps s) (name_or_step name)))
  | RawStep which_end _ =>
      let (popped, rest) := pop (steps s) in
      match popped with
      | None => Return false (set_steps s rest)
      | Some n => if n =? "" then Return false (set_steps s rest)
                  else Next (set_steps s rest)
      end
  | _ => Next s
  end.

(** The merge chain: each case is one [if] of the source, in its order;
    [last] and [beforeLast] are the entries whose [type] the source reads. *)
Definition merge (s : Codegen) (ev : RawEvent) : Codegen :=
  let last := at_ (events s) (length_ (events s) - 1) in
  let beforeLast := at_ (events s) (length_ (events s) - 2) in
  match ev, last with
  | RawMouse mousemove d, Some (EMouseMove _ st) =>
      let (_, rest) := pop (events s) in
      set_events s (push rest (EMouseMove d (Some (steps_default st + 1))))
  | RawMouse mouseup d, Some (EMouseDown _) =>
      let (_, rest) := pop (events s) in
      set_events s (push rest (EClick d))
  | RawKeyboard keyup d, Some (EKeyDown d0) =>
      if getCodegenKey d =? getCodegenKey d0 then
        let (_, rest) := pop (events s) in
        set_events s (push rest (EKeyPress d))
      else set_events s (push (events s) (as_consumed ev))
  | RawMouse dblclick d, Some (EClick _) =>
      match beforeLast with
      | Some (EClick _) =>
          let (_, rest1) := pop (events s) in
          let (_, rest2) := pop rest1 in
          set_events s (push rest2 (as_consumed ev))
      | _ => set_events s (push (events s) (as_consumed ev))
      end
  | RawWheel d dx dy, Some (EWheel d0 dx0 dy0) =>
      if number_strict_eq (x d0) (x d) && number_strict_eq (y d0) (y d) then
        let (_, rest) := pop (events s) in
        set_events s (push rest (EWheel d (number_add dx0 dx) (number_add dy0 dy)))
      else set_events s (push (events s) (as_consumed ev))
  | _, _ => set_events s (push (events s) (as_consumed ev))
  end.

Definition consume_flow (s : Codegen) (ev : RawEvent) : Flow :=
  and_then (track_button s ev) (fun s1 =>
  and_then (track_steps s1 ev) (fun s2 =>
  Return true (merge s2 ev))).

(** [consume(ev)]: the returned boolean and the state afterwards. *)
Definition consume (s : Codegen) (ev : RawEvent) : bool * Codegen :=
  match consume_flow s ev with
  | Return b s' => (b, s')
  | Next s' => (true, s')
  end.

(** The events [evs] consumed one after the other. *)
Definition consume_all (s : Codegen) (evs : list RawEvent) : Codegen :=
  fold_left (fun s ev => snd (consume s ev)) evs s.

(** ** [parse] and [write] *)

(** A counter or a step count inside a template literal. *)
Definition nat_show (n : nat) : string := NilZero.string_of_uint (Nat.to_uint n).

Definition step_end : ConsumedEventData := EStep which_end None.

(** The lines one entry renders to: the [switch] of [parse]. *)
Definition render (ev : ConsumedEventData) : list string :=
  match ev with
  | EKeyDown d => [("await page.keyboard.down('" ++ getCodegenKey d ++ "');")%string]
  | EKeyUp d => [("await page.keyboard.up('" ++ getCodegenKey d ++ "');")%string]
  | EKeyPress d => [("await page.keyboard.press('" ++ getCodegenKey d ++ "');")%string]
  | EMouseDown d =>
      [("await page.mouse.move(" ++ number_show (x d) ++ ", "
          ++ number_show (y d) ++ ");")%string;
       "await page.mouse.down();"]
  | EMouseMove d st =>
      [("await page.mouse.move(" ++ number_show (x d) ++ ", "
          ++ number_show (y d) ++ ", { steps: " ++ nat_show (steps_default st)
          ++ " });")%string]
  | EMouseUp _ => ["await page.mouse.up();"]
  | EClick d =>
      [("await page.mouse.click(" ++ number_show (x d) ++ ", "
          ++ number_show (y d) ++ ");")%string]
  | EDblClick d =>
      [("await page.mouse.dblclick(" ++ number_show (x d) ++ ", "
          ++ number_show (y d) ++ ");")%string]
  | EWheel d dx dy =>
      [("await page.mouse.move(" ++ number_show (x d) ++ ", "
          ++ number_show (y d) ++ ");")%string;
       ("await page.mouse.wheel(" ++ number_show dx ++ ", "
          ++ number_show dy ++ ");")%string]
  | EScreenshot d =>
      let clipped := match options d with
                     | Some o => options_clip o
                     | None => false
                     end in
      [("expect("
         ++ (if clipped then "page"
             else "await page.locator(" ++ shot_handle d ++ ")")
         ++ ").toHaveScreenshot('" ++ shot_name d ++ "', "
         ++ match options d with
            | Some o => JSON_stringify o
            | None => EmptyString
            end
         ++ ");")%string]
  | EStep which_start name =>
      [("await test.step('" ++ name_or_step name ++ "', async () => {")%string]
  | EStep which_end _ => ["});"]
  | EComment value => [("// " ++ value)%string]
  | ENavigation url => [("await page.goto('" ++ url ++ "');")%string]
  end.

(** The entries [parse] renders: the log, then one closing entry per name
    on the step stack. *)
Definition parse_data (s : Codegen) : list ConsumedEventData :=
  events s ++ fill (List.length (steps s)) step_end.

Definition parse (s : Codegen) : list string :=
  flat_map render (parse_data s).

Definition double_quote : string := String (ascii_of_nat 34) EmptyString.

Definition newline : string := String (ascii_of_nat 10) EmptyString.

Definition script_lines (s : Codegen) : list string :=
  [("import { test, expect } from " ++ double_quote ++ "@playwright/test"
      ++ double_quote ++ ";")%string;
   EmptyString;
   "// This file is readonly and gets written frequently";
   EmptyString;
   "test('codegen output', async ({ page }, testInfo) => {";
   EmptyString;
   "// you may need to replace the `selector` value";
   "const selector = '#canvas';";
   EmptyString;
   EmptyString]
  ++ parse s ++ ["});"].

(** What [write] leaves in the file: the joined lines, reformatted when the
    [prettier] command succeeds. *)
Definition script_text (s : Codegen) : string :=
  let text := String.concat newline (script_lines s) in
  match prettier text with
  | Some formatted => formatted
  | None => text
  end.

Definition write (s : Codegen) : Codegen := set_file_content s (script_text s).

(** ** The listeners registered by [attach]

    [debounce(() => this.write(), 250)]: a call arms the timer, and the
    write happens when the timer fires ([debounce_fire]). *)
Definition debounced_write (s : Codegen) : Codegen := set_write_pending s true.

Definition debounce_fire (s : Codegen) : Codegen :=
  if write_pending s then write (set_write_pending s false) else s.

(** [exec = (ev) => this.consume(ev) && write()] *)
Definition exec (s : Codegen) (ev : RawEvent) : Codegen :=
  let (accepted, s') := consume s ev in
  if accepted then debounced_write s' else s'.

(** The second listener on [screenshot]: the snapshot file. *)
Definition save_snapshot (s : Codegen) (d : ScreenshotEventData) : Codegen :=
  set_snapshots s (push (snapshots s) (shot_name d, screenshot d)).

(** [this.emit(ev.type, ev)]: the listeners of the type, in the order of
    their registration. *)
Definition emit (s : Codegen) (ev : RawEvent) : Codegen :=
  let s' := exec s ev in
  match ev with
  | RawScreenshot d => save_snapshot s' d
  | _ => s'
  end.

(** ** What [install] exposes to the page *)

(** [emitCodegenEvent]: [this.recording && this.emit(e.type, e)] *)
Definition emitCodegenEvent (s : Codegen) (e : RawEvent) : Codegen :=
  if recording s then emit s e else s.

(** The [framenavigated] handler. *)
Definition framenavigated (s : Codegen) (url : string) : Codegen :=
  emit s (RawNavigation url).

Definition startRecording (s : Codegen) : Codegen := set_recording s true.

Definition stopRecording (s : Codegen) : Codegen := set_recording s false.

(** How a call of the API ends: it returns, or it throws; either way the
    object is in the state the call left it in. *)
Inductive Outcome : Type :=
| Returned (s : Codegen)
| Thrown (message : string) (s : Codegen).

Definition state_after (o : Outcome) : Codegen :=
  match o with
  | Returned s => s
  | Thrown _ s => s
  end.

Definition has_thrown (o : Outcome) : bool :=
  match o with
  | Returned _ => false
  | Thrown _ _ => true
  end.

Definition not_recording_message : string :=
  "Recoding is not in progress, call `startRecording()`".

(** [assertRecording(); body] *)
Definition assertRecording (s : Codegen) (body : Codegen -> Codegen) : Outcome :=
  if negb (recording s) then Thrown not_recording_message s
  else Returned (body s).

Definition step (s : Codegen) (name : option string) : Outcome :=
  assertRecording s (fun s => emit s (RawStep which_start name)).

Definition endStep (s : Codegen) : Outcome :=
  assertRecording s (fun s => emit s (RawStep which_end None)).

Definition comment (s : Codegen) (value : string) : Outcome :=
  assertRecording s (fun s => emit s (RawComment value)).

(** The default of the parameter [name] of [captureScreenshot], evaluated
    when the argument is absent and before the body runs:
    [`${this.testInfo.title}-${++this.counter}.png`]. *)
Definition default_name (s : Codegen) (name : option string) : string * Codegen :=
  match name with
  | Some n => (n, s)
  | None =>
      let c := S (counter s) in
      ((title s ++ "-" ++ nat_show c ++ ".png")%string, set_counter s c)
  end.

(** [captureScreenshot] up to its first [await]: the parameter default, then
    [assertRecording()].  The rest of the call waits for the page (the
    selected area, the focused element, the image) and then emits the
    screenshot event: [captureScreenshot_emit]. *)
Definition captureScreenshot (s : Codegen) (name : option string) : Outcome :=
  let (_, s1) := default_name s name in
  assertRecording s1 (fun s => s).

Definition captureScreenshot_emit (s : Codegen) (d : ScreenshotEventData) : Codegen :=
  emit s (RawScreenshot d).

(** ** The recorder as a transition system

    One action per entry point of the object: the two functions the page
    calls for its events, the six functions of the browser API, and the
    debounce timer.  [Codegen.start] sets [recording] as [startRecording]
    does.  [captureScreenshot] spans several [await]s, so its two halves are
    two actions, and the second is not tied to the first: the states reached
    are at least those of the object. *)

Inductive Action : Type :=
| AEmitCodegenEvent (e : RawEvent)
| AFrameNavigated (url : string)
| AStartRecording
| AStopRecording
| AStep (name : option string)
| AEndStep
| AComment (value : string)
| ACaptureScreenshot (name : option string)
| AScreenshotReady (d : ScreenshotEventData)
| ADebounceFire.

Definition run (s : Codegen) (a : Action) : Codegen :=
  match a with
  | AEmitCodegenEvent e => emitCodegenEvent s e
  | AFrameNavigated url => framenavigated s url
  | AStartRecording => startRecording s
  | AStopRecording => stopRecording s
  | AStep name => state_after (step s name)
  | AEndStep => state_after (endStep s)
  | AComment value => state_after (comment s value)
  | ACaptureScreenshot name => state_after (captureScreenshot s name)
  | AScreenshotReady d => captureScreenshot_emit s d
  | ADebounceFire => debounce_fire s
  end.

Definition run_all (s : Codegen) (l : list Action) : Codegen := fold_left run l s.

(** The states a recorder can be in: those a sequence of actions leads to
    from a fresh object. *)
Inductive reachable : Codegen -> Prop :=
| reachable_new : forall test_title existing_file,
    reachable (new_Codegen test_title existing_file)
| reachable_run : forall s a, reachable s -> reachable (run s a).

(** ** Notions the properties are stated with *)

(** The step stack after the entries of a log, read in order from the stack
    [stack]: a start opens a step under the name [parse] prints for it, an
    end closes the innermost open step; [None] if an end finds none open. *)
Fixpoint open_steps (stack : list string) (log : list ConsumedEventData)
  : option (list string) :=
  match log with
  | [] => Some stack
  | EStep which_start name :: rest =>
      open_steps (stack ++ [name_or_step name]) rest
  | EStep which_end _ :: rest =>
      match stack with
      | [] => None
      | _ :: _ => open_steps (removelast stack) rest
      end
  | _ :: rest => open_steps stack rest
  end.

(** The step stack holds the steps the log leaves open, each under a name
    that is not empty. *)
Definition steps_match_log (s : Codegen) : Prop :=
  open_steps [] (events s) = Some (steps s)
  /\ Forall (fun n => n <> EmptyString) (steps s).

(** The same reading on rendered lines: the depth of open [test.step]
    blocks after the lines, [None] if a block closes that was never opened. *)
Definition opens_step (line : string) : bool := prefix "await test.step('" line.

Definition closes_step (line : string) : bool := (line =? "});")%string.

Fixpoint nesting (depth : nat) (lines : list string) : option nat :=
  match lines with
  | [] => Some depth
  | line :: rest =>
      if opens_step line then nesting (S depth) rest
      else if closes_step line then
        match depth with
        | O => None
        | S d => nesting d rest
        end
      else nesting depth rest
  end.

(** The line [parse] prints for the start of a step named [n], and the
    line it prints for the end of a step. *)
Definition step_opener (n : string) : string :=
  ("await test.step('" ++ n ++ "', async () => {")%string.

Definition step_closer : string := "});".

(** The blocks open after the lines, as the stack of their opening lines,
    innermost last: an opening line is pushed, a closing line pops the
    innermost one; [None] if a line closes with no block open. *)
Fixpoint open_blocks (stack : list string) (lines : list string)
  : option (list string) :=
  match lines with
  | [] => Some stack
  | line :: rest =>
      if opens_step line then open_blocks (stack ++ [line]) rest
      else if closes_step line then
        match stack with
        | [] => None
        | _ :: _ => open_blocks (removelast stack) rest
        end
      else open_blocks stack rest
  end.

(** The lines of a text, as [text.split("\n")] gives them, and whether a
    string holds a line break. *)
Fixpoint has_line_break (line : string) : bool :=
  match line with
  | EmptyString => false
  | String c rest => Ascii.eqb c (ascii_of_nat 10) || has_line_break rest
  end.

Fixpoint split_lines (text : string) : list string :=
  match text with
  | EmptyString => [EmptyString]
  | String c rest =>
      if Ascii.eqb c (ascii_of_nat 10) then EmptyString :: split_lines rest
      else match split_lines rest with
           | [] => [String c EmptyString]
           | line :: lines => String c line :: lines
           end
  end.

Definition is_step (e : ConsumedEventData) : bool :=
  match e with
  | EStep _ _ => true
  | _ => false
  end.

Definition is_click (e : ConsumedEventData) : bool :=
  match e with
  | EClick _ => true
  | _ => false
  end.

Definition is_move (e : ConsumedEventData) : bool :=
  match e with
  | EMouseMove _ _ => true
  | _ => false
  end.

(** No two neighbours of the log are both mousemove entries. *)
Fixpoint no_adjacent_moves (log : list ConsumedEventData) : bool :=
  match log with
  | a :: (b :: _) as rest => negb (is_move a && is_move b) && no_adjacent_moves rest
  | _ => true
  end.

Definition ends_with_move (log : list ConsumedEventData) : bool :=
  match at_ log (length_ log - 1) with
  | Some e => is_move e
  | None => false
  end.

(** The [steps] field after [n] moves have been merged into a fresh
    mousemove entry: absent on the fresh entry itself. *)
Definition run_steps (n : nat) : option nat :=
  match n with
  | O => None
  | S _ => Some n
  end.

(** [s'] has the session of [s]: the same log, step stack, button flag and
    recording flag, and the same file, armed write and snapshots.  The
    counter that names screenshots is apart. *)
Definition same_session (s s' : Codegen) : Prop :=
  events s' = events s /\ steps s' = steps s /\ down s' = down s
  /\ recording s' = recording s /\ file_content s' = file_content s
  /\ write_pending s' = write_pending s /\ snapshots s' = snapshots s.

(** The rules of the merge chain, as a relation between the log before, the
    event and the log after. *)
Inductive merge_rule
  : list ConsumedEventData -> RawEvent -> list ConsumedEventData -> Prop :=
| rule_move : forall l d0 st d,
    merge_rule (l ++ [EMouseMove d0 st]) (RawMouse mousemove d)
               (l ++ [EMouseMove d (Some (steps_default st + 1))])
| rule_click : forall l d0 d,
    merge_rule (l ++ [EMouseDown d0]) (RawMouse mouseup d) (l ++ [EClick d])
| rule_keypress : forall l d0 d,
    getCodegenKey d = getCodegenKey d0 ->
    merge_rule (l ++ [EKeyDown d0]) (RawKeyboard keyup d) (l ++ [EKeyPress d])
| rule_dblclick : forall l a b d,
    merge_rule ((l ++ [EClick a]) ++ [EClick b]) (RawMouse dblclick d)
               (l ++ [EDblClick d])
| rule_wheel : forall l d0 dx0 dy0 d dx dy,
    number_strict_eq (x d0) (x d) && number_strict_eq (y d0) (y d) = true ->
    merge_rule (l ++ [EWheel d0 dx0 dy0]) (RawWheel d dx dy)
               (l ++ [EWheel d (number_add dx0 dx) (number_add dy0 dy)])
| rule_push : forall log ev,
    (forall d, ev = RawMouse mousemove d -> ends_with_move log = false) ->
    merge_rule log ev (log ++ [as_consumed ev]).

(** The names [getCodegenKey] derives from the modifier flags, in the order
    of its object literal. *)
Definition modifier_names (m : EventModifiers) : list string :=
  (if altKey m then ["Alt"] else [])
  ++ (if ctrlKey m then ["Ctrl"] else [])
  ++ (if metaKey m then ["Meta"] else [])
  ++ (if shiftKey m then ["Shift"] else []).

(** Entries of a type the merge chain never reads as [last] or
    [beforeLast] of a collapse: it pops mousemove, mousedown, keydown, click
    and wheel entries only. *)
Definition is_permanent (e : ConsumedEventData) : bool :=
  match e with
  | EMouseMove _ _ | EMouseDown _ | EKeyDown _ | EClick _ | EWheel _ _ _ => false
  | _ => true
  end.

Definition permanent_entries (log : list ConsumedEventData)
  : list ConsumedEventData :=
  filter is_permanent log.

(** The snapshot a screenshot listener writes for an event, if any. *)
Definition snapshot_of (ev : RawEvent) : list (string * Buffer) :=
  match ev with
  | RawScreenshot d => [(shot_name d, screenshot d)]
  | _ => []
  end.

(** The snapshots the screenshot entries of a log stand for. *)
Definition log_snapshots (log : list ConsumedEventData) : list (string * Buffer) :=
  flat_map (fun e => match e with
                     | EScreenshot d => [(shot_name d, screenshot d)]
                     | _ => []
                     end) log.

End Engine.

(** ** A concrete host

    Integer numbers, byte buffers, and screenshot options reduced to what
    the recorder reads of them; no formatter installed. *)

Definition Z_show (z : Z) : string := NilZero.string_of_int (Z.to_int z).

Record SampleOptions : Type := {
  has_clip : bool;
  as_json : string
}.

#[export] Instance ZHost : Host :=
  {| number := Z;
     number_add := Z.add;
     number_strict_eq := Z.eqb;
     number_show := Z_show;
     Buffer := list nat;
     PageScreenshotOptions := SampleOptions;
     options_clip := has_clip;
     JSON_stringify := as_json;
     prettier := fun _ => None |}.

Module Sample.

Definition at_point (px py : Z) : @BasicMouseEventData ZHost :=
  {| x := px; y := py; handle := "selector"; mouse_modifiers := no_modifiers |}.

Definition mouse (t : MouseEventType) (px py : Z) : @RawEvent ZHost :=
  RawMouse t (at_point px py).

Definition wheel (px py dx dy : Z) : @RawEvent ZHost :=
  RawWheel (at_point px py) dx dy.

Definition fresh : @Codegen ZHost := new_Codegen "t" EmptyString.

(** A recorder that has been started. *)
Definition started : @Codegen ZHost := startRecording fresh.

(** The log after the page has sent the events [l] to a started recorder. *)
Definition feed (l : list (@RawEvent ZHost)) : @Codegen ZHost :=
  fold_left emitCodegenEvent l started.

(** One click on the log, as a press and a release at the same point give. *)
Definition two_clicks : @Codegen ZHost :=
  feed [mouse mousedown 5 5; mouse mouseup 5 5;
        mouse mousedown 5 5; mouse mouseup 5 5].

(** Steps [a] and [b] open, an unnamed step opened and closed in between. *)
Definition nested : @Codegen ZHost :=
  run_all fresh
    [AStartRecording; AStep (Some "a"); AStep None; AComment "x"; AEndStep;
     AStep (Some "b")].

(** A comment recorded and its write still waiting for the timer. *)
Definition commented : @Codegen ZHost :=
  run_all fresh [AStartRecording; AComment "x"].

Definition key_event (k : string) (shift : bool) : BasicKeyboardEventData :=
  {| key := k;
     key_modifiers := {| shiftKey := shift; ctrlKey := false;
                         altKey := false; metaKey := false |} |}.

Definition shot (n : string) : @ScreenshotEventData ZHost :=
  {| shot_handle := "selector"; screenshot := [137; 80; 78; 71];
     shot_name := n; options := None |}.

(** A drag, then two screenshots with a comment in between. *)
Definition with_shots : @Codegen ZHost :=
  run_all fresh
    [AStartRecording; AEmitCodegenEvent (mouse mousedown 1 1);
     AEmitCodegenEvent (mouse mousemove 2 2); AScreenshotReady (shot "a.png");
     AComment "x"; AScreenshotReady (shot "b.png")].

End Sample.


(** ** Checks of the model on the scenarios of the documentation *)

Example drag_scenario :
  parse (Sample.feed [Sample.mouse mousedown 10 10; Sample.mouse mousemove 20 20;
                      Sample.mouse mousemove 30 30; Sample.mouse mouseup 30 30])
  = ["await page.mouse.move(10, 10);"; "await page.mouse.down();";
     "await page.mouse.move(30, 30, { steps: 1 });"; "await page.mouse.up();"].
Proof. reflexivity. Qed.

Example open_step_scenario :
  parse (state_after (comment (state_after (step Sample.started (Some "a"))) "x"))
  = ["await test.step('a', async () => {"; "// x"; "});"].
Proof. reflexivity. Qed.

Example modifier_label :
  getCodegenKey {| key := "Shift";
                   key_modifiers := {| shiftKey := true; ctrlKey := true;
                                       altKey := true; metaKey := false |} |}
  = "Alt+Ctrl+Shift".
Proof. reflexivity. Qed.

(** ** Arrays *)

Section ArrayFacts.

Context {A : Type}.

Lemma snoc_cases (l : list A) : l = [] \/ exists l' a, l = l' ++ [a].
Proof.
  destruct l as [|h t] using rev_ind; [now left | right; eauto].
Qed.

Lemma at_last (l : list A) (a : A) : at_ (l ++ [a]) (length_ (l ++ [a]) - 1) = Some a.
Proof.
  unfold at_, length_. rewrite length_app, Nat.add_1_r.
  replace (Z.of_nat (S (List.length l)) - 1)%Z with (Z.of_nat (List.length l)) by lia.
  destruct (Z.ltb_spec (Z.of_nat (List.length l)) 0); [lia|].
  rewrite Nat2Z.id, nth_error_app2, Nat.sub_diag by lia. reflexivity.
Qed.

Lemma at_before_last (l : list A) (a b : A) :
  at_ ((l ++ [a]) ++ [b]) (length_ ((l ++ [a]) ++ [b]) - 2) = Some a.
Proof.
  unfold at_, length_. rewrite !length_app. simpl List.length.
  replace (Z.of_nat (List.length l + 1 + 1) - 2)%Z with (Z.of_nat (List.length l)) by lia.
  destruct (Z.ltb_spec (Z.of_nat (List.length l)) 0); [lia|].
  rewrite Nat2Z.id, <- app_assoc, nth_error_app2, Nat.sub_diag by lia. reflexivity.
Qed.

Lemma pop_snoc (l : list A) (a : A) : pop (l ++ [a]) = (Some a, l).
Proof.
  unfold pop. now rewrite at_last, removelast_last.
Qed.

End ArrayFacts.

(** ** The merge chain follows its rules *)

Section MergeFacts.

Context {H : Host}.

Implicit Types (s : Codegen) (ev : RawEvent) (log : list ConsumedEventData).

Local Arguments getCodegenKey : simpl never.

Lemma ends_with_move_nil : ends_with_move (@nil ConsumedEventData) = false.
Proof. reflexivity. Qed.

Lemma ends_with_move_snoc log e : ends_with_move (log ++ [e]) = is_move e.
Proof. unfold ends_with_move. now rewrite at_last. Qed.

Ltac push_rule :=
  match goal with
  | |- merge_rule ?l ?e _ => apply (@rule_push _ l e)
  end.

Lemma merge_spec s ev : merge_rule (events s) ev (events (merge s ev)).
Proof.
  destruct (snoc_cases (events s)) as [E | (l & e & E)].
  - unfold merge. rewrite E. cbn.
    destruct ev as [[] d| | [] d| | | |]; cbn;
      push_rule; intros; apply ends_with_move_nil.
  - unfold merge. rewrite E, at_last, pop_snoc.
    destruct ev as [[] d|d dx dy|[] d|d|w n|v|u]; cbv zeta;
      try (destruct e; cbn; try (push_rule; intros d' Hd; discriminate Hd);
           fail).
    + destruct e; cbn;
        try (push_rule; intros d' _; now rewrite ends_with_move_snoc).
      apply rule_move.
    + destruct e; cbn; try (push_rule; intros d' Hd; discriminate Hd).
      apply rule_click.
    + destruct (snoc_cases l) as [-> | (l' & a & ->)].
      * destruct e; cbn; push_rule; intros d' Hd; discriminate Hd.
      * rewrite at_before_last, pop_snoc.
        destruct e; try (cbn; push_rule; intros d' Hd; discriminate Hd).
        destruct a; try (cbn; push_rule; intros d' Hd; discriminate Hd).
        cbn. apply rule_dblclick.
    + destruct e; cbn; try (push_rule; intros d' Hd; discriminate Hd).
      destruct (number_strict_eq (x d0) (x d) && number_strict_eq (y d0) (y d)) eqn:E'.
      * cbn. now apply rule_wheel.
      * cbn. push_rule. intros d' Hd; discriminate Hd.
    + destruct e; cbn; try (push_rule; intros d' Hd; discriminate Hd).
      destruct (getCodegenKey d =? getCodegenKey d0)%string eqn:E'.
      * cbn. apply rule_keypress. now apply String.eqb_eq.
      * cbn. push_rule. intros d' Hd; discriminate Hd.
Qed.

End MergeFacts.

(** ** [consume], event by event *)

Section ConsumeFacts.

Context {H : Host}.

Implicit Types (s : Codegen) (ev : RawEvent) (log : list ConsumedEventData).

Local Arguments getCodegenKey : simpl never.

Lemma merge_fields s ev : merge s ev = set_events s (events (merge s ev)).
Proof.
  unfold merge.
  repeat match goal with
         | |- context [match ?t with _ => _ end] => destruct t
         end; reflexivity.
Qed.

Lemma merge_set_down s b ev : merge (set_down s b) ev = set_down (merge s ev) b.
Proof.
  unfold merge. cbn [events set_down].
  repeat match goal with
         | |- context [match ?t with _ => _ end] => destruct t
         end; reflexivity.
Qed.

Lemma consume_mousedown s d :
  consume s (RawMouse mousedown d) = (true, merge (set_down s true) (RawMouse mousedown d)).
Proof. reflexivity. Qed.

Lemma consume_mouseup s d :
  consume s (RawMouse mouseup d) = (true, merge (set_down s false) (RawMouse mouseup d)).
Proof. reflexivity. Qed.

Lemma consume_mousemove s d :
  consume s (RawMouse mousemove d)
  = if down s then (true, merge s (RawMouse mousemove d)) else (false, s).
Proof. unfold consume, consume_flow. cbn. now destruct (down s). Qed.

Lemma consume_dblclick s d :
  consume s (RawMouse dblclick d) = (true, merge s (RawMouse dblclick d)).
Proof. reflexivity. Qed.

Lemma consume_wheel s d dx dy :
  consume s (RawWheel d dx dy) = (true, merge s (RawWheel d dx dy)).
Proof. reflexivity. Qed.

Lemma consume_keyboard s t d :
  consume s (RawKeyboard t d) = (true, merge s (RawKeyboard t d)).
Proof. reflexivity. Qed.

Lemma consume_screenshot s d :
  consume s (RawScreenshot d) = (true, merge s (RawScreenshot d)).
Proof. reflexivity. Qed.

Lemma consume_comment s v :
  consume s (RawComment v) = (true, merge s (RawComment v)).
Proof. reflexivity. Qed.

Lemma consume_navigation s u :
  consume s (RawNavigation u) = (true, merge s (RawNavigation u)).
Proof. reflexivity. Qed.

Lemma merge_step s w n :
  merge s (RawStep w n) = set_events s (events s ++ [EStep w n]).
Proof. unfold merge. now destruct (at_ (events s) (length_ (events s) - 1)). Qed.

Lemma merge_navigation s u :
  merge s (RawNavigation u) = set_events s (events s ++ [ENavigation u]).
Proof. unfold merge. now destruct (at_ (events s) (length_ (events s) - 1)). Qed.

Lemma consume_step_start s n :
  consume s (RawStep which_start n)
  = (true, set_events (set_steps s (steps s ++ [name_or_step n]))
             (events s ++ [EStep which_start n])).
Proof.
  unfold consume, consume_flow. cbn [track_button and_then track_steps].
  now rewrite merge_step.
Qed.

Lemma consume_step_end_empty s n :
  steps s = [] -> consume s (RawStep which_end n) = (false, s).
Proof.
  intros E. unfold consume, consume_flow. cbn [track_button and_then track_steps].
  rewrite E. cbn. destruct s; cbn in *; now subst.
Qed.

Lemma consume_step_end_named s n rest top :
  steps s = rest ++ [top] -> top <> EmptyString ->
  consume s (RawStep which_end n)
  = (true, set_events (set_steps s rest) (events s ++ [EStep which_end n])).
Proof.
  intros E Htop. unfold consume, consume_flow.
  cbn [track_button and_then track_steps]. rewrite E, pop_snoc.
  destruct (String.eqb_spec top EmptyString) as [->|_]; [contradiction|].
  cbn [and_then]. now rewrite merge_step.
Qed.

(** An unnamed entry on top of the stack would be popped and the event
    still refused; no recorder gets there, see [reachable_steps_match_log]. *)
Lemma consume_step_end_unnamed s n rest :
  steps s = rest ++ [EmptyString] ->
  consume s (RawStep which_end n) = (false, set_steps s rest).
Proof.
  intros E. unfold consume, consume_flow.
  cbn [track_button and_then track_steps]. now rewrite E, pop_snoc.
Qed.

End ConsumeFacts.

(** ** What an action does to the log and to the step stack *)

Section RunFacts.

Context {H : Host}.

Implicit Types (s : Codegen) (ev : RawEvent) (log : list ConsumedEventData).

Lemma consume_log s ev :
  events (snd (consume s ev)) = events s
  \/ merge_rule (events s) ev (events (snd (consume s ev))).
Proof.
  destruct ev as [[] d|d dx dy|t d|d|[] n|v|u].
  - right. rewrite consume_mousedown. apply (merge_spec (set_down s true)).
  - rewrite consume_mousemove. destruct (down s); [right; apply merge_spec | now left].
  - right. rewrite consume_mouseup. apply (merge_spec (set_down s false)).
  - right. apply merge_spec.
  - right. apply merge_spec.
  - right. apply merge_spec.
  - right. apply merge_spec.
  - right. rewrite consume_step_start. cbn.
    apply (@rule_push _ (events s) (RawStep which_start n)). discriminate.
  - destruct (snoc_cases (steps s)) as [E | (rest & top & E)].
    + left. now rewrite consume_step_end_empty.
    + destruct (String.eqb_spec top EmptyString) as [-> | Htop].
      * left. now erewrite consume_step_end_unnamed by eassumption.
      * right. erewrite consume_step_end_named by eassumption. cbn.
        apply (@rule_push _ (events s) (RawStep which_end n)). discriminate.
  - right. apply merge_spec.
  - right. apply merge_spec.
Qed.

Lemma consume_steps_other s ev :
  (forall w n, ev <> RawStep w n) -> steps (snd (consume s ev)) = steps s.
Proof.
  intros Hev. destruct ev as [[] d|d dx dy|t d|d|w n|v|u];
    try (now destruct (Hev w n));
    rewrite ?consume_mousedown, ?consume_mouseup, ?consume_mousemove,
      ?consume_dblclick, ?consume_wheel, ?consume_keyboard, ?consume_screenshot,
      ?consume_comment, ?consume_navigation;
    try destruct (down s); cbn [snd]; try rewrite merge_fields; reflexivity.
Qed.

Lemma events_emit s ev : events (emit s ev) = events (snd (consume s ev)).
Proof.
  unfold emit, exec. destruct (consume s ev) as [[] s']; now destruct ev.
Qed.

Lemma steps_emit s ev : steps (emit s ev) = steps (snd (consume s ev)).
Proof.
  unfold emit, exec. destruct (consume s ev) as [[] s']; now destruct ev.
Qed.

Lemma run_log s a :
  (events (run s a) = events s /\ steps (run s a) = steps s)
  \/ exists ev, events (run s a) = events (snd (consume s ev))
               /\ steps (run s a) = steps (snd (consume s ev)).
Proof.
  destruct a as [e|u| | |n| |v|n|d|]; cbn [run].
  - unfold emitCodegenEvent. destruct (recording s); [right | now left].
    exists e. now rewrite events_emit, steps_emit.
  - right. eexists. unfold framenavigated. now rewrite events_emit, steps_emit.
  - now left.
  - now left.
  - unfold step, assertRecording.
    destruct (recording s); cbn [negb state_after]; [right | now left].
    eexists. now rewrite events_emit, steps_emit.
  - unfold endStep, assertRecording.
    destruct (recording s); cbn [negb state_after]; [right | now left].
    eexists. now rewrite events_emit, steps_emit.
  - unfold comment, assertRecording.
    destruct (recording s); cbn [negb state_after]; [right | now left].
    eexists. now rewrite events_emit, steps_emit.
  - left. unfold captureScreenshot, assertRecording.
    destruct n; cbn; destruct (recording s); now cbn.
  - right. eexists. unfold captureScreenshot_emit. now rewrite events_emit, steps_emit.
  - left. unfold debounce_fire. now destruct (write_pending s).
Qed.

Lemma reachable_run_all s l : reachable s -> reachable (run_all s l).
Proof.
  revert s. induction l as [|a l IH]; intros s Hs; cbn; [assumption|].
  apply IH. now apply reachable_run.
Qed.

End RunFacts.

(** ** The step stack and the log *)

Section StepFacts.

Context {H : Host}.

Implicit Types (s : Codegen) (ev : RawEvent) (log : list ConsumedEventData).
Implicit Types (stack : list string).

Local Arguments getCodegenKey : simpl never.
Local Arguments nat_show : simpl never.

Lemma open_steps_app stack log1 log2 :
  open_steps stack (log1 ++ log2)
  = match open_steps stack log1 with
    | Some stack' => open_steps stack' log2
    | None => None
    end.
Proof.
  revert stack. induction log1 as [|e log1 IH]; intros stack; [reflexivity|].
  destruct e as [| | | | | | | | | |[] n| |]; cbn; try apply IH.
  destruct stack; [reflexivity | apply IH].
Qed.

Lemma open_steps_other stack e : is_step e = false -> open_steps stack [e] = Some stack.
Proof. now destruct e. Qed.

Lemma as_consumed_step ev :
  (forall w n, ev <> RawStep w n) -> is_step (as_consumed ev) = false.
Proof.
  intros Hev. destruct ev as [[] d|d dx dy|[] d|d|w n|v|u]; try reflexivity.
  now destruct (Hev w n).
Qed.

Lemma merge_rule_open_steps log ev log' :
  merge_rule log ev log' -> (forall w n, ev <> RawStep w n) ->
  forall stack, open_steps stack log' = open_steps stack log.
Proof.
  intros Hrule Hev stack.
  destruct Hrule; rewrite ?open_steps_app;
    try (destruct (open_steps stack l); reflexivity).
  destruct (open_steps stack log); [|reflexivity].
  now rewrite open_steps_other by now apply as_consumed_step.
Qed.

Lemma name_or_step_named n : name_or_step n <> EmptyString.
Proof.
  destruct n as [n|]; cbn; [|discriminate].
  destruct (String.eqb_spec n EmptyString); [discriminate | assumption].
Qed.

Lemma consume_steps_match_log s ev :
  steps_match_log s -> steps_match_log (snd (consume s ev)).
Proof.
  intros [Hopen Hnamed].
  assert (Hother : (forall w n, ev <> RawStep w n) ->
                   steps_match_log (snd (consume s ev))).
  { intros Hev. unfold steps_match_log. rewrite consume_steps_other by assumption.
    split; [|assumption].
    destruct (consume_log s ev) as [-> | Hrule]; [assumption|].
    now rewrite (merge_rule_open_steps Hrule Hev). }
  destruct ev as [t d|d dx dy|t d|d|[] n|v|u]; try (apply Hother; discriminate).
  - rewrite consume_step_start. split; cbn.
    + rewrite open_steps_app, Hopen. reflexivity.
    + apply Forall_app. split; [assumption|].
      constructor; [apply name_or_step_named | constructor].
  - destruct (snoc_cases (steps s)) as [E | (rest & top & E)].
    + rewrite consume_step_end_empty by assumption. now split.
    + rewrite E in Hnamed. apply Forall_app in Hnamed. destruct Hnamed as [Hrest Htop].
      inversion Htop as [|? ? Htop' _]; subst.
      erewrite consume_step_end_named by eassumption. split; cbn; [|assumption].
      rewrite open_steps_app, Hopen, E. cbn.
      destruct (rest ++ [top]) eqn:E'; [now destruct rest|].
      now rewrite <- E', removelast_last.
Qed.

Lemma run_steps_match_log s a : steps_match_log s -> steps_match_log (run s a).
Proof.
  intros Hs. unfold steps_match_log.
  destruct (run_log s a) as [[-> ->] | (ev & -> & ->)]; [assumption|].
  now apply consume_steps_match_log.
Qed.

Lemma reachable_steps_match_log s : reachable s -> steps_match_log s.
Proof.
  induction 1 as [|s a _ IH]; [|now apply run_steps_match_log].
  split; [reflexivity | constructor].
Qed.

(** Rendered lines of an entry that is no step boundary open and close
    nothing. *)
Lemma nesting_render_other e depth rest :
  is_step e = false -> nesting depth (render e ++ rest) = nesting depth rest.
Proof.
  destruct e as [d|d st|d|d|d|d dx dy|d|d|d|d|w n|v|u]; intros He;
    try discriminate He; reflexivity.
Qed.

Lemma nesting_render log :
  forall stack stack' rest,
    open_steps stack log = Some stack' ->
    nesting (List.length stack) (flat_map render log ++ rest)
    = nesting (List.length stack') rest.
Proof.
  induction log as [|e log IH]; intros stack stack' rest Hopen.
  - now inversion Hopen.
  - cbn [flat_map]. rewrite <- app_assoc.
    destruct (is_step e) eqn:He.
    + destruct e as [| | | | | | | | | |[] n| |]; try discriminate He; cbn in Hopen |- *.
      * replace (prefix EmptyString (name_or_step n ++ "', async () => {")%string)
          with true by now destruct (name_or_step n ++ "', async () => {")%string.
        rewrite <- (IH _ _ rest Hopen), length_app, Nat.add_1_r. reflexivity.
      * destruct stack as [|top stack]; [discriminate|].
        rewrite <- (IH _ _ rest Hopen).
        destruct (snoc_cases (top :: stack)) as [E | (l' & a & E)]; [discriminate|].
        rewrite E, removelast_last, length_app, Nat.add_1_r.
        cbn [List.length] in *. reflexivity.
    + rewrite nesting_render_other by assumption.
      apply IH. destruct e; try discriminate He; exact Hopen.
Qed.

Lemma opens_step_opener n : opens_step (step_opener n) = true.
Proof.
  unfold opens_step, step_opener. cbn.
  now destruct (n ++ "', async () => {")%string.
Qed.

Lemma removelast_map (A B : Type) (f : A -> B) (l : list A) :
  removelast (map f l) = map f (removelast l).
Proof.
  induction l as [|a l IH]; [reflexivity|].
  destruct l as [|b l]; [reflexivity|].
  change (f a :: removelast (map f (b :: l)) = f a :: map f (removelast (b :: l))).
  now rewrite IH.
Qed.

Lemma open_blocks_render_other e stack rest :
  is_step e = false -> open_blocks stack (render e ++ rest) = open_blocks stack rest.
Proof.
  destruct e as [d|d st|d|d|d|d dx dy|d|d|d|d|w n|v|u]; intros He;
    try discriminate He; reflexivity.
Qed.

(** The rendered lines open and close blocks as the entries open and close
    steps, each block under the line of its step's name. *)
Lemma open_blocks_render log :
  forall stack stack' rest,
    open_steps stack log = Some stack' ->
    open_blocks (map step_opener stack) (flat_map render log ++ rest)
    = open_blocks (map step_opener stack') rest.
Proof.
  induction log as [|e log IH]; intros stack stack' rest Hopen.
  - now inversion Hopen.
  - cbn [flat_map]. rewrite <- app_assoc.
    destruct (is_step e) eqn:He.
    + destruct e as [| | | | | | | | | |[] n| |]; try discriminate He.
      * change (render (EStep which_start n)) with [step_opener (name_or_step n)].
        cbn [app open_blocks]. rewrite opens_step_opener.
        cbn [open_steps] in Hopen. rewrite <- (IH _ _ rest Hopen), map_app.
        reflexivity.
      * cbn [open_steps] in Hopen.
        destruct stack as [|top stack]; [discriminate|].
        rewrite <- (IH _ _ rest Hopen), <- removelast_map. reflexivity.
    + rewrite open_blocks_render_other by assumption.
      apply IH. destruct e; try discriminate He; exact Hopen.
Qed.

Lemma render_step_ends k :
  flat_map render (repeat step_end k) = repeat step_closer k.
Proof. induction k as [|k IH]; [reflexivity|]. cbn. now rewrite IH. Qed.

Lemma split_lines_plain line :
  has_line_break line = false -> split_lines line = [line].
Proof.
  induction line as [|c line IH]; [reflexivity|].
  cbn [has_line_break split_lines].
  destruct (Ascii.eqb c (ascii_of_nat 10)); [discriminate|].
  cbn [orb]. intros E. now rewrite (IH E).
Qed.

Lemma split_lines_app line text :
  has_line_break line = false ->
  split_lines (line ++ newline ++ text)%string = line :: split_lines text.
Proof.
  induction line as [|c line IH]; [reflexivity|].
  cbn [has_line_break split_lines append].
  destruct (Ascii.eqb c (ascii_of_nat 10)); [discriminate|].
  cbn [orb]. intros E. now rewrite (IH E).
Qed.

Lemma split_lines_concat lines :
  Forall (fun line => has_line_break line = false) lines -> lines <> [] ->
  split_lines (String.concat newline lines) = lines.
Proof.
  induction 1 as [|line lines Hline Hlines IH]; [contradiction|]. intros _.
  destruct lines as [|line' lines].
  - cbn. now apply split_lines_plain.
  - change (String.concat newline (line :: line' :: lines))
      with (line ++ newline ++ String.concat newline (line' :: lines))%string.
    rewrite split_lines_app by assumption. f_equal. apply IH. discriminate.
Qed.

End StepFacts.

(** ** Runs of mousemove entries *)

Section MoveFacts.

Context {H : Host}.

Implicit Types (s : Codegen) (ev : RawEvent) (log : list ConsumedEventData).

Lemma ends_with_move_cons a b log :
  ends_with_move (a :: b :: log) = ends_with_move (b :: log).
Proof.
  destruct (snoc_cases (b :: log)) as [E | (l' & z & E)]; [discriminate|].
  rewrite E, (app_comm_cons l' [z] a). now rewrite !ends_with_move_snoc.
Qed.

Lemma no_adjacent_moves_snoc log e :
  no_adjacent_moves (log ++ [e])
  = no_adjacent_moves log && negb (ends_with_move log && is_move e).
Proof.
  induction log as [|a log IH]; [reflexivity|].
  destruct log as [|b log].
  - cbn. now destruct (is_move a), (is_move e).
  - change (no_adjacent_moves ((a :: b :: log) ++ [e]))
      with (negb (is_move a && is_move b) && no_adjacent_moves ((b :: log) ++ [e])).
    rewrite IH, ends_with_move_cons.
    change (no_adjacent_moves (a :: b :: log))
      with (negb (is_move a && is_move b) && no_adjacent_moves (b :: log)).
    now rewrite andb_assoc.
Qed.

Lemma as_consumed_move ev :
  is_move (as_consumed ev) = true -> exists d, ev = RawMouse mousemove d.
Proof.
  destruct ev as [[] d|d dx dy|[] d|d|w n|v|u]; try discriminate. eauto.
Qed.

Lemma merge_rule_no_adjacent_moves log ev log' :
  merge_rule log ev log' ->
  no_adjacent_moves log = true -> no_adjacent_moves log' = true.
Proof.
  intros Hrule. destruct Hrule as [l d0 st d|l d0 d|l d0 d _|l a b d|l d0 dx0 dy0 d dx dy _|log ev Hpush];
    rewrite !no_adjacent_moves_snoc; cbn [is_move];
    rewrite ?andb_false_r, ?andb_true_r; cbn [negb]; rewrite ?andb_true_r;
    try (intros Hl; exact Hl).
  intros ->. cbn [andb].
  destruct (is_move (as_consumed ev)) eqn:E; [|now rewrite andb_false_r].
  apply as_consumed_move in E. destruct E as [d ->].
  now rewrite (Hpush d eq_refl).
Qed.

Lemma consume_no_adjacent_moves s ev :
  no_adjacent_moves (events s) = true ->
  no_adjacent_moves (events (snd (consume s ev))) = true.
Proof.
  intros Hs. destruct (consume_log s ev) as [-> | Hrule]; [assumption|].
  now apply (merge_rule_no_adjacent_moves Hrule).
Qed.

Lemma run_no_adjacent_moves s a :
  no_adjacent_moves (events s) = true ->
  no_adjacent_moves (events (run s a)) = true.
Proof.
  intros Hs. destruct (run_log s a) as [[-> _] | (ev & -> & _)]; [assumption|].
  now apply consume_no_adjacent_moves.
Qed.

Lemma reachable_no_adjacent_moves s :
  reachable s -> no_adjacent_moves (events s) = true.
Proof.
  induction 1 as [|s a _ IH]; [reflexivity | now apply run_no_adjacent_moves].
Qed.

Lemma merge_move_fresh s d :
  ends_with_move (events s) = false ->
  merge s (RawMouse mousemove d) = set_events s (events s ++ [EMouseMove d None]).
Proof.
  unfold ends_with_move, merge.
  destruct (at_ (events s) (length_ (events s) - 1)) as [[]|];
    try discriminate; reflexivity.
Qed.

Lemma merge_move_run s l d0 st d :
  events s = l ++ [EMouseMove d0 st] ->
  merge s (RawMouse mousemove d)
  = set_events s (l ++ [EMouseMove d (Some (steps_default st + 1))]).
Proof.
  intros E. unfold merge. now rewrite E, at_last, pop_snoc.
Qed.

Lemma steps_default_run_steps n : steps_default (run_steps n) = n.
Proof. now destruct n. Qed.

Lemma consume_all_moves s ds d_last :
  down s = true -> ends_with_move (events s) = false ->
  consume_all s (map (RawMouse mousemove) (ds ++ [d_last]))
  = set_events s (events s ++ [EMouseMove d_last (run_steps (List.length ds))]).
Proof.
  intros Hdown Htail. revert d_last.
  induction ds as [|d' ds IH] using rev_ind; intros d_last.
  - cbn. rewrite consume_mousemove, Hdown. cbn [snd].
    now apply merge_move_fresh.
  - rewrite map_app. unfold consume_all. rewrite fold_left_app.
    fold (consume_all s (map (RawMouse mousemove) (ds ++ [d']))).
    rewrite IH. cbn [map fold_left].
    rewrite consume_mousemove. cbn [down set_events]. rewrite Hdown. cbn [snd].
    erewrite merge_move_run by reflexivity.
    rewrite steps_default_run_steps, length_app. cbn [List.length].
    rewrite !Nat.add_1_r. reflexivity.
Qed.

End MoveFacts.

(** ** Properties of the recorder *)

Section Properties.

Context {H : Host}.

Implicit Types (s : Codegen) (ev : RawEvent) (log : list ConsumedEventData).

Local Arguments getCodegenKey : simpl never.

(** C1, as amended.  When the log ends with a mousedown entry, [consume] of
    a mouseup event accepts it, clears the button flag, pops that entry and
    pushes a single click entry; the click carries the fields of the mouseup
    event (its x, y, locator and modifiers), and the log does not end with a
    mousedown/mouseup pair. *)
Theorem mouseup_after_mousedown_is_click s l d0 d :
  events s = l ++ [EMouseDown d0] ->
  consume s (RawMouse mouseup d)
  = (true, set_events (set_down s false) (l ++ [EClick d])).
Proof.
  intros E. rewrite consume_mouseup. f_equal.
  unfold merge. cbn [events set_down]. now rewrite E, at_last, pop_snoc.
Qed.

(** C2, as amended.  An event the page sends through [emitCodegenEvent]
    while [recording] is false is discarded and the whole state is left as
    it was.  A navigation does not pass that gate: the [framenavigated]
    handler appends it to the log and arms a write whatever [recording] is. *)
Theorem gate_discards_page_events s e url :
  (recording s = false -> emitCodegenEvent s e = s)
  /\ framenavigated s url
     = debounced_write (set_events s (events s ++ [ENavigation url])).
Proof.
  split.
  - intros E. unfold emitCodegenEvent. now rewrite E.
  - unfold framenavigated, emit, exec.
    now rewrite consume_navigation, merge_navigation.
Qed.


(** C4.  In every state the recorder can reach, the step stack holds the
    steps the log leaves open; [parse] renders the log followed by one
    step-end per name on the stack; each of these closes the innermost step
    still open, so after all of them none is open.  The lines [parse]
    returns say the same: they are the lines of the log followed by one
    closing line per open step; after the lines of the log the open blocks
    are those of the names on the stack, each under its opening line; every
    closing line that follows closes the innermost of them, and after the
    last none is open and none was closed before it opened.  The same holds
    of the lines of the joined text when no rendered string holds a line
    break. *)
Theorem rendered_steps_are_balanced s :
  reachable s ->
  open_steps [] (events s) = Some (steps s)
  /\ parse_data s = events s ++ repeat step_end (List.length (steps s))
  /\ (forall k, k <= List.length (steps s) ->
      open_steps [] (events s ++ repeat step_end k)
      = Some (firstn (List.length (steps s) - k) (steps s)))
  /\ open_steps [] (parse_data s) = Some []
  /\ nesting 0 (parse s) = Some 0
  /\ parse s
     = flat_map render (events s) ++ repeat step_closer (List.length (steps s))
  /\ open_blocks [] (flat_map render (events s))
     = Some (map step_opener (steps s))
  /\ (forall k, k <= List.length (steps s) ->
      open_blocks [] (flat_map render (events s) ++ repeat step_closer k)
      = Some (map step_opener (firstn (List.length (steps s) - k) (steps s))))
  /\ open_blocks [] (parse s) = Some []
  /\ (Forall (fun line => has_line_break line = false) (parse s) ->
      open_blocks [] (split_lines (String.concat newline (parse s))) = Some []).
Proof.
  intros Hs. destruct (reachable_steps_match_log Hs) as [Hopen _].
  assert (Hclose : forall k stack, k <= List.length stack ->
            open_steps stack (repeat step_end k)
            = Some (firstn (List.length stack - k) stack)).
  { induction k as [|k IH]; intros stack Hk.
    - cbn. now rewrite Nat.sub_0_r, firstn_all.
    - destruct (snoc_cases stack) as [-> | (rest & top & ->)]; [cbn in Hk; lia|].
      rewrite length_app, Nat.add_1_r in Hk. cbn [repeat open_steps step_end].
      destruct (rest ++ [top]) eqn:E; [now destruct rest|]. rewrite <- E.
      rewrite removelast_last, IH by lia.
      rewrite length_app, Nat.add_1_r, firstn_app. cbn [Nat.sub].
      replace (List.length rest - k - List.length rest) with 0 by lia.
      cbn [firstn]. now rewrite app_nil_r. }
  assert (Hall : open_steps [] (parse_data s) = Some []).
  { unfold parse_data, fill. rewrite open_steps_app, Hopen, Hclose by lia.
    now rewrite Nat.sub_diag. }
  assert (Hprefix : forall k, k <= List.length (steps s) ->
            open_steps [] (events s ++ repeat step_end k)
            = Some (firstn (List.length (steps s) - k) (steps s))).
  { intros k Hk. now rewrite open_steps_app, Hopen, Hclose. }
  assert (Hparse : parse s
                   = flat_map render (events s)
                     ++ repeat step_closer (List.length (steps s))).
  { unfold parse, parse_data, fill. now rewrite flat_map_app, render_step_ends. }
  assert (Hlines : forall k, k <= List.length (steps s) ->
            open_blocks [] (flat_map render (events s) ++ repeat step_closer k)
            = Some (map step_opener (firstn (List.length (steps s) - k) (steps s)))).
  { intros k Hk.
    pose proof (@open_blocks_render _ (events s ++ repeat step_end k) [] _ []
                  (Hprefix k Hk)) as Hb.
    now rewrite app_nil_r, flat_map_app, render_step_ends in Hb. }
  assert (Hblocks : open_blocks [] (parse s) = Some []).
  { rewrite Hparse, Hlines by lia. now rewrite Nat.sub_diag. }
  split; [assumption|]. split; [reflexivity|]. split; [assumption|].
  split; [assumption|]. split; [|split; [assumption|split; [|split; [assumption|split; [assumption|]]]]].
  - pose proof (@nesting_render _ (parse_data s) [] [] [] Hall) as Hn.
    now rewrite app_nil_r in Hn.
  - specialize (Hlines 0 (Nat.le_0_l _)).
    now rewrite app_nil_r, Nat.sub_0_r, firstn_all in Hlines.
  - intros Hplain. destruct (parse s) as [|line lines] eqn:E; [reflexivity|].
    rewrite split_lines_concat by (assumption || discriminate). exact Hblocks.
Qed.

(** C5.  From a state with the button down and a log that does not end
    with a mousemove entry, consuming N >= 1 mousemove events in a row leaves
    one mousemove entry on the log, with the fields of the last event and
    N-1 steps (read with the default 0 of an absent [steps]).  No two
    neighbours of the log are both mousemove entries: [consume] and every
    action of the recorder keep that, and it holds in every state the
    recorder can reach. *)
Theorem moves_coalesce :
  (forall s ds d_last,
      down s = true -> ends_with_move (events s) = false ->
      exists st,
        consume_all s (map (RawMouse mousemove) (ds ++ [d_last]))
        = set_events s (events s ++ [EMouseMove d_last st])
        /\ steps_default st = List.length (ds ++ [d_last]) - 1)
  /\ (forall s ev, no_adjacent_moves (events s) = true ->
                   no_adjacent_moves (events (snd (consume s ev))) = true)
  /\ (forall s a, no_adjacent_moves (events s) = true ->
                  no_adjacent_moves (events (run s a)) = true)
  /\ (forall s, reachable s -> no_adjacent_moves (events s) = true).
Proof.
  split; [|split; [|split]].
  - intros s ds d_last Hdown Htail. exists (run_steps (List.length ds)). split.
    + now apply consume_all_moves.
    + rewrite steps_default_run_steps, length_app, Nat.add_1_r. cbn. lia.
  - apply consume_no_adjacent_moves.
  - apply run_no_adjacent_moves.
  - apply reachable_no_adjacent_moves.
Qed.

(** C6.  When the log ends with a wheel entry, [consume] of a wheel event
    at the same x and y (compared with [===]) pops that entry and pushes one
    wheel entry whose deltaX and deltaY are the sums of the two; at another
    x or y the event is appended as a fresh wheel entry. *)
Theorem wheel_accumulates s l d0 dx0 dy0 d dx dy :
  events s = l ++ [EWheel d0 dx0 dy0] ->
  (number_strict_eq (x d0) (x d) && number_strict_eq (y d0) (y d) = true ->
   consume s (RawWheel d dx dy)
   = (true, set_events s (l ++ [EWheel d (number_add dx0 dx) (number_add dy0 dy)])))
  /\ (number_strict_eq (x d0) (x d) && number_strict_eq (y d0) (y d) = false ->
      consume s (RawWheel d dx dy)
      = (true, set_events s ((l ++ [EWheel d0 dx0 dy0]) ++ [EWheel d dx dy]))).
Proof.
  intros E. rewrite consume_wheel. unfold merge. rewrite E, at_last, pop_snoc.
  split; intros ->; reflexivity.
Qed.

(** C7.  [consume] of a dblclick event collapses the log exactly when its
    last two entries are both click entries: those two are removed and one
    dblclick entry is pushed.  Otherwise, in particular when another entry
    stands between two clicks, the dblclick entry is appended and nothing is
    removed. *)
Theorem dblclick_collapses_two_clicks s d :
  (forall l a b,
      events s = (l ++ [EClick a]) ++ [EClick b] ->
      consume s (RawMouse dblclick d) = (true, set_events s (l ++ [EDblClick d])))
  /\ ((forall l a b, events s <> (l ++ [EClick a]) ++ [EClick b]) ->
      consume s (RawMouse dblclick d)
      = (true, set_events s (events s ++ [EDblClick d])))
  /\ (forall l a e b,
      is_click e = false ->
      events s = ((l ++ [EClick a]) ++ [e]) ++ [EClick b] ->
      consume s (RawMouse dblclick d)
      = (true, set_events s (events s ++ [EDblClick d]))).
Proof.
  assert (Hno : (forall l a b, events s <> (l ++ [EClick a]) ++ [EClick b]) ->
                consume s (RawMouse dblclick d)
                = (true, set_events s (events s ++ [EDblClick d]))).
  { intros Hno. rewrite consume_dblclick, merge_fields. do 2 f_equal.
    pose proof (merge_spec s (RawMouse dblclick d)) as Hrule.
    remember (events (merge s (RawMouse dblclick d))) as log' eqn:E'. clear E'.
    remember (events s) as log0 eqn:E0.
    inversion Hrule; subst.
    - now destruct (Hno l a b).
    - reflexivity. }
  split; [|split; [assumption|]].
  - intros l a b E. rewrite consume_dblclick. f_equal. unfold merge.
    now rewrite E, at_last, at_before_last, !pop_snoc.
  - intros l a e b He E. apply Hno. intros l' a' b' E'. rewrite E in E'.
    apply app_inj_tail in E'. destruct E' as [E' _].
    apply app_inj_tail in E'. destruct E' as [_ ->]. discriminate He.
Qed.

(** C8.  [consume] of a step-end event on an empty step stack returns
    false and changes nothing, and no write is armed; on a stack whose top
    name is not empty it pops that one name and appends a step-end entry to
    the log.  In every state the recorder can reach the names on the stack
    are not empty, so there a stack that is not empty is always popped. *)
Theorem step_end_pops_or_is_dropped s n :
  (steps s = [] ->
   consume s (RawStep which_end n) = (false, s)
   /\ emit s (RawStep which_end n) = s)
  /\ (forall rest top,
      steps s = rest ++ [top] -> top <> EmptyString ->
      consume s (RawStep which_end n)
      = (true, set_events (set_steps s rest) (events s ++ [EStep which_end n])))
  /\ (reachable s ->
      forall rest top,
        steps s = rest ++ [top] ->
        top <> EmptyString
        /\ consume s (RawStep which_end n)
           = (true, set_events (set_steps s rest) (events s ++ [EStep which_end n]))).
Proof.
  split; [|split].
  - intros E. unfold emit, exec. now rewrite consume_step_end_empty.
  - intros rest top E Htop. now apply consume_step_end_named with (top := top).
  - intros Hs rest top E.
    assert (Htop : top <> EmptyString).
    { destruct (reachable_steps_match_log Hs) as [_ Hnamed].
      rewrite E in Hnamed. apply Forall_app in Hnamed. destruct Hnamed as [_ Htop].
      now inversion Htop. }
    split; [assumption|]. now apply consume_step_end_named with (top := top).
Qed.

(** C9.  Each of [step], [endStep], [captureScreenshot] and [comment]
    throws exactly when [recording] is false, and then the log, the step
    stack, the button flag, the recording flag, the file, the armed write
    and the snapshots are as before the call. *)
Theorem api_throws_iff_not_recording s name value :
  (has_thrown (step s name) = negb (recording s)
   /\ (has_thrown (step s name) = true -> state_after (step s name) = s))
  /\ (has_thrown (endStep s) = negb (recording s)
      /\ (has_thrown (endStep s) = true -> state_after (endStep s) = s))
  /\ (has_thrown (comment s value) = negb (recording s)
      /\ (has_thrown (comment s value) = true -> state_after (comment s value) = s))
  /\ (has_thrown (captureScreenshot s name) = negb (recording s)
      /\ (has_thrown (captureScreenshot s name) = true ->
          same_session s (state_after (captureScreenshot s name)))).
Proof.
  unfold step, endStep, comment, captureScreenshot, assertRecording, same_session.
  destruct name as [nm|]; cbn [default_name recording set_counter];
    destruct (recording s) eqn:E; cbn [negb has_thrown state_after];
    repeat (split || intro); try reflexivity; try discriminate; exact E.
Qed.

(** C10.  [consume] accepts a wheel event whatever the button flag is: the
    event is appended to the log or merged into the wheel entry at its end,
    and with [recording] on it arms a write.  An event is refused only if it
    is a mousemove with the button up or a step-end, and for any event that
    is not a mousemove the button flag changes neither the answer of
    [consume] nor the log it leaves. *)
Theorem wheel_passes_button_filter s d dx dy :
  fst (consume s (RawWheel d dx dy)) = true
  /\ (events (snd (consume s (RawWheel d dx dy))) = events s ++ [EWheel d dx dy]
      \/ exists l d0 dx0 dy0,
           events s = l ++ [EWheel d0 dx0 dy0]
           /\ events (snd (consume s (RawWheel d dx dy)))
              = l ++ [EWheel d (number_add dx0 dx) (number_add dy0 dy)])
  /\ (recording s = true ->
      write_pending (emitCodegenEvent s (RawWheel d dx dy)) = true
      /\ events (emitCodegenEvent s (RawWheel d dx dy))
         = events (snd (consume s (RawWheel d dx dy))))
  /\ (forall ev, fst (consume s ev) = false ->
                 (exists d', ev = RawMouse mousemove d' /\ down s = false)
                 \/ exists n, ev = RawStep which_end n)
  /\ (forall ev b, (forall d', ev <> RawMouse mousemove d') ->
                   fst (consume (set_down s b) ev) = fst (consume s ev)
                   /\ events (snd (consume (set_down s b) ev))
                      = events (snd (consume s ev))).
Proof.
  split; [reflexivity|]. split; [|split; [|split]].
  - rewrite consume_wheel. cbn [snd].
    pose proof (merge_spec s (RawWheel d dx dy)) as Hrule.
    remember (events (merge s (RawWheel d dx dy))) as log' eqn:E'. clear E'.
    remember (events s) as log0 eqn:E0.
    inversion Hrule; subst.
    + right. exists l, d0, dx0, dy0. now split.
    + now left.
  - intros E. unfold emitCodegenEvent. rewrite E, events_emit. split; [|reflexivity].
    unfold emit, exec. now rewrite consume_wheel.
  - intros ev E.
    destruct ev as [[] d'|d' dx' dy'|t d'|d'|[] n|v|u]; try discriminate E.
    + left. exists d'. split; [reflexivity|].
      rewrite consume_mousemove in E. now destruct (down s).
    + right. now exists n.
  - intros ev b Hev.
    destruct ev as [[] d'|d' dx' dy'|t d'|d'|w n|v|u];
      try (now destruct (Hev d')); try (split; reflexivity);
      try (rewrite ?consume_dblclick, ?consume_wheel, ?consume_keyboard;
           cbn [fst snd]; rewrite merge_set_down; split; reflexivity).
    unfold consume, consume_flow, track_button, and_then, track_steps.
    cbn [steps set_down]. destruct w; [split; reflexivity|].
    destruct (pop (steps s)) as [[top|] rest]; [|split; reflexivity].
    destruct (top =? EmptyString)%string; split; reflexivity.
Qed.

End Properties.

(** ** The properties on concrete recordings *)

Lemma click_witness :
  consume (Sample.feed [Sample.mouse mousedown 5 5]) (Sample.mouse mouseup 7 7)
  = (true,
     set_events (set_down (Sample.feed [Sample.mouse mousedown 5 5]) false)
       ([] ++ [EClick (Sample.at_point 7 7)])).
Proof.
  apply (mouseup_after_mousedown_is_click
           (Sample.feed [Sample.mouse mousedown 5 5]) []
           (Sample.at_point 5 5) (Sample.at_point 7 7)).
  reflexivity.
Defined.

(** The click of a press at (5,5) released at (7,7) is at (7,7). *)
Lemma click_is_not_at_mousedown_point :
  events (Sample.feed [Sample.mouse mousedown 5 5])
  = [] ++ [EMouseDown (Sample.at_point 5 5)]
  /\ ~ (exists c,
          events (snd (consume (Sample.feed [Sample.mouse mousedown 5 5])
                               (Sample.mouse mouseup 7 7)))
          = [] ++ [EClick c]
          /\ x c = x (Sample.at_point 5 5) /\ y c = y (Sample.at_point 5 5)).
Proof.
  split; [reflexivity|]. intros (c & E & Hx & _).
  vm_compute in E. injection E as <-. discriminate Hx.
Qed.

Lemma gate_witness :
  emitCodegenEvent Sample.fresh (Sample.mouse mousedown 1 1) = Sample.fresh.
Proof.
  apply (proj1 (gate_discards_page_events Sample.fresh
                  (Sample.mouse mousedown 1 1) "http://localhost:8000/")).
  reflexivity.
Defined.

(** A navigation reaches the log of a recorder that was never started. *)
Lemma navigation_is_recorded_while_not_recording :
  recording Sample.fresh = false
  /\ events (framenavigated Sample.fresh "http://localhost:8000/")
     = [ENavigation "http://localhost:8000/"]
  /\ write_pending (framenavigated Sample.fresh "http://localhost:8000/") = true
  /\ framenavigated Sample.fresh "http://localhost:8000/" <> Sample.fresh.
Proof.
  repeat split. intros E. apply (f_equal write_pending) in E. discriminate E.
Qed.



Lemma balanced_witness :
  open_steps [] (events Sample.nested) = Some (steps Sample.nested)
  /\ parse_data Sample.nested = events Sample.nested ++ repeat step_end (List.length (steps Sample.nested))
  /\ (forall k, k <= List.length (steps Sample.nested) ->
      open_steps [] (events Sample.nested ++ repeat step_end k)
      = Some (firstn (List.length (steps Sample.nested) - k) (steps Sample.nested)))
  /\ open_steps [] (parse_data Sample.nested) = Some []
  /\ nesting 0 (parse Sample.nested) = Some 0
  /\ parse Sample.nested
     = flat_map render (events Sample.nested) ++ repeat step_closer (List.length (steps Sample.nested))
  /\ open_blocks [] (flat_map render (events Sample.nested))
     = Some (map step_opener (steps Sample.nested))
  /\ (forall k, k <= List.length (steps Sample.nested) ->
      open_blocks [] (flat_map render (events Sample.nested) ++ repeat step_closer k)
      = Some (map step_opener (firstn (List.length (steps Sample.nested) - k) (steps Sample.nested))))
  /\ open_blocks [] (parse Sample.nested) = Some []
  /\ (Forall (fun line => has_line_break line = false) (parse Sample.nested) ->
      open_blocks [] (split_lines (String.concat newline (parse Sample.nested))) = Some []).
Proof.
  apply (@rendered_steps_are_balanced ZHost Sample.nested).
  unfold Sample.nested, Sample.fresh. apply reachable_run_all, reachable_new.
Defined.

(** A comment that holds a line break and a closing line: the strings
    [parse] returns are balanced, the lines of their joined text are not. *)
Example comment_with_line_break :
  open_blocks []
    (parse (state_after (comment Sample.started ("x" ++ newline ++ "});")%string)))
  = Some []
  /\ open_blocks []
       (split_lines
          (String.concat newline
             (parse (state_after
                       (comment Sample.started ("x" ++ newline ++ "});")%string)))))
     = None.
Proof. split; reflexivity. Qed.

Example nested_script :
  steps Sample.nested = ["a"; "b"]
  /\ parse Sample.nested
     = ["await test.step('a', async () => {";
        "await test.step('step', async () => {"; "// x"; "});";
        "await test.step('b', async () => {"; "});"; "});"].
Proof. split; reflexivity. Qed.

Lemma moves_witness :
  exists st,
    consume_all (Sample.feed [Sample.mouse mousedown 10 10])
      (map (RawMouse mousemove)
           ([Sample.at_point 20 20; Sample.at_point 25 25] ++ [Sample.at_point 30 30]))
    = set_events (Sample.feed [Sample.mouse mousedown 10 10])
        (events (Sample.feed [Sample.mouse mousedown 10 10])
         ++ [EMouseMove (Sample.at_point 30 30) st])
    /\ steps_default st
       = List.length ([Sample.at_point 20 20; Sample.at_point 25 25]
                      ++ [Sample.at_point 30 30]) - 1.
Proof.
  apply (proj1 moves_coalesce (Sample.feed [Sample.mouse mousedown 10 10])
           [Sample.at_point 20 20; Sample.at_point 25 25] (Sample.at_point 30 30));
    reflexivity.
Defined.

Lemma wheel_witness :
  consume (Sample.feed [Sample.wheel 1 1 2 3]) (Sample.wheel 1 1 1 1)
  = (true,
     set_events (Sample.feed [Sample.wheel 1 1 2 3])
       ([] ++ [EWheel (Sample.at_point 1 1) (2 + 1)%Z (3 + 1)%Z])).
Proof.
  apply (proj1 (wheel_accumulates (Sample.feed [Sample.wheel 1 1 2 3])
                  [] (Sample.at_point 1 1) 2%Z 3%Z
                  (Sample.at_point 1 1) 1%Z 1%Z eq_refl)).
  reflexivity.
Defined.

Example wheel_scenario :
  events (Sample.feed [Sample.wheel 1 1 2 3; Sample.wheel 1 1 1 1;
                       Sample.wheel 2 1 1 1])
  = [EWheel (Sample.at_point 1 1) 3%Z 4%Z; EWheel (Sample.at_point 2 1) 1%Z 1%Z].
Proof. reflexivity. Qed.

Lemma dblclick_witness :
  consume Sample.two_clicks (Sample.mouse dblclick 5 5)
  = (true, set_events Sample.two_clicks ([] ++ [EDblClick (Sample.at_point 5 5)])).
Proof.
  apply (proj1 (dblclick_collapses_two_clicks Sample.two_clicks (Sample.at_point 5 5))
           [] (Sample.at_point 5 5) (Sample.at_point 5 5)).
  reflexivity.
Defined.

Lemma step_end_witness :
  (consume Sample.nested (RawStep which_end None)
   = (true, set_events (set_steps Sample.nested ["a"])
              (events Sample.nested ++ [EStep which_end None])))
  /\ (consume Sample.started (RawStep which_end None) = (false, Sample.started)
      /\ emit Sample.started (RawStep which_end None) = Sample.started)
  /\ ("b" <> EmptyString
      /\ consume Sample.nested (RawStep which_end None)
         = (true, set_events (set_steps Sample.nested ["a"])
                    (events Sample.nested ++ [EStep which_end None]))).
Proof.
  split; [|split].
  - apply (proj1 (proj2 (step_end_pops_or_is_dropped Sample.nested None))
             ["a"] "b"); [reflexivity | discriminate].
  - apply (proj1 (step_end_pops_or_is_dropped Sample.started None)). reflexivity.
  - apply (proj2 (proj2 (step_end_pops_or_is_dropped Sample.nested None))).
    + unfold Sample.nested, Sample.fresh. apply reachable_run_all, reachable_new.
    + reflexivity.
Defined.

Lemma api_witness :
  state_after (comment Sample.fresh "x") = Sample.fresh.
Proof.
  apply (api_throws_iff_not_recording Sample.fresh None "x"). reflexivity.
Defined.

(** [captureScreenshot] without a name has advanced the counter when it
    throws. *)
Example captureScreenshot_counter :
  has_thrown (captureScreenshot Sample.fresh None) = true
  /\ counter (state_after (captureScreenshot Sample.fresh None)) = 1
  /\ counter (state_after (captureScreenshot Sample.fresh (Some "a.png"))) = 0.
Proof. repeat split. Qed.

Lemma wheel_filter_witness :
  write_pending (emitCodegenEvent Sample.started (Sample.wheel 1 1 2 3)) = true
  /\ events (emitCodegenEvent Sample.started (Sample.wheel 1 1 2 3))
     = events (snd (consume Sample.started (Sample.wheel 1 1 2 3))).
Proof.
  apply (wheel_passes_button_filter Sample.started (Sample.at_point 1 1) 2%Z 3%Z).
  reflexivity.
Defined.

Example wheel_with_button_up :
  down Sample.started = false
  /\ events (Sample.feed [Sample.mouse mousemove 1 1; Sample.wheel 1 1 2 3])
     = [EWheel (Sample.at_point 1 1) 2%Z 3%Z].
Proof. split; reflexivity. Qed.

(** ** Further properties: what an action leaves alone *)

Section FrameFacts.

Context {H : Host}.

Implicit Types (s : Codegen) (ev : RawEvent) (log : list ConsumedEventData).

Local Arguments getCodegenKey : simpl never.

(** [consume] writes [events], [down] and [steps] and nothing else. *)
Lemma consume_frame s ev :
  exists log' down' steps',
    snd (consume s ev) = set_steps (set_down (set_events s log') down') steps'.
Proof.
  assert (Hself : exists log' down' steps',
             s = set_steps (set_down (set_events s log') down') steps').
  { exists (events s), (down s), (steps s). now destruct s. }
  assert (Hmerge : forall s1, (exists log' down' steps',
             s1 = set_steps (set_down (set_events s log') down') steps') ->
             exists log' down' steps',
               merge s1 ev = set_steps (set_down (set_events s log') down') steps').
  { intros s1 (l1 & d1 & st1 & ->). rewrite merge_fields.
    eexists _, d1, st1. reflexivity. }
  destruct ev as [[] d|d dx dy|t d|d|[] n|v|u];
    rewrite ?consume_mousedown, ?consume_mouseup, ?consume_mousemove,
      ?consume_dblclick, ?consume_wheel, ?consume_keyboard, ?consume_screenshot,
      ?consume_comment, ?consume_navigation, ?consume_step_start;
    try (cbn [snd]; apply Hmerge; assumption).
  - cbn [snd]. apply Hmerge. exists (events s), true, (steps s). now destruct s.
  - destruct (down s); cbn [snd]; [apply Hmerge|]; assumption.
  - cbn [snd]. apply Hmerge. exists (events s), false, (steps s). now destruct s.
  - cbn [snd]. exists (events s ++ [EStep which_start n]), (down s),
      (steps s ++ [name_or_step n]). now destruct s.
  - unfold consume, consume_flow. cbn [track_button and_then track_steps].
    destruct (pop (steps s)) as [[top|] rest].
    + destruct (top =? EmptyString)%string; cbn [and_then snd].
      * exists (events s), (down s), rest. now destruct s.
      * rewrite merge_step. exists (events s ++ [EStep which_end n]), (down s), rest.
        now destruct s.
    + cbn [snd]. exists (events s), (down s), rest. now destruct s.
Qed.

Lemma emit_frame s ev :
  exists log' down' steps' pending',
    emit s ev
    = set_snapshots
        (set_write_pending (set_steps (set_down (set_events s log') down') steps')
           pending')
        (snapshots s ++ snapshot_of ev).
Proof.
  destruct (consume_frame s ev) as (l & d & st & E).
  unfold emit, exec. destruct (consume s ev) as [b s']. cbn [snd] in E. subst s'.
  exists l, d, st, (if b then true else write_pending s).
  destruct b, ev; cbn; rewrite ?app_nil_r; now destruct s.
Qed.

End FrameFacts.

(** ** Further properties of [consume], [getCodegenKey] and [parse] *)

Section MoreOfConsume.

Context {H : Host}.

Implicit Types (s : Codegen) (ev : RawEvent) (log : list ConsumedEventData).

Local Arguments getCodegenKey : simpl never.

(** X1.  When the log ends with a keydown entry, [consume] of a keyup event
    whose label ([getCodegenKey]) is that of the keydown pops the entry and
    pushes one keypress entry with the fields of the keyup event; with
    another label the keyup entry is appended and the keydown stays. *)
Theorem keyup_after_keydown_is_keypress s l d0 d :
  events s = l ++ [EKeyDown d0] ->
  (getCodegenKey d = getCodegenKey d0 ->
   consume s (RawKeyboard keyup d) = (true, set_events s (l ++ [EKeyPress d])))
  /\ (getCodegenKey d <> getCodegenKey d0 ->
      consume s (RawKeyboard keyup d)
      = (true, set_events s ((l ++ [EKeyDown d0]) ++ [EKeyUp d]))).
Proof.
  intros E. rewrite consume_keyboard. unfold merge. rewrite E, at_last, pop_snoc.
  destruct (String.eqb_spec (getCodegenKey d) (getCodegenKey d0)) as [Hk|Hk];
    split; intros Hk'; try reflexivity; contradiction.
Qed.

(** X2.  The button flag after [consume] is true after a mousedown, false
    after a mouseup, and what it was after any other event; and a mousemove
    that arrives with the button up is refused with the state unchanged and
    no write armed. *)
Theorem button_flag_follows_the_mouse s ev :
  down (snd (consume s ev))
  = match ev with
    | RawMouse mousedown _ => true
    | RawMouse mouseup _ => false
    | _ => down s
    end
  /\ (forall d, ev = RawMouse mousemove d -> down s = false ->
                consume s ev = (false, s) /\ emit s ev = s).
Proof.
  split.
  - destruct ev as [[] d|d dx dy|t d|d|[] n|v|u];
      rewrite ?consume_mousedown, ?consume_mouseup, ?consume_mousemove,
        ?consume_dblclick, ?consume_wheel, ?consume_keyboard,
        ?consume_screenshot, ?consume_comment, ?consume_navigation,
        ?consume_step_start;
      try (destruct (down s) eqn:E); cbn [snd];
      try rewrite merge_fields; cbn [down set_events set_steps set_down];
      try congruence.
    all: unfold consume, consume_flow; cbn [track_button and_then track_steps];
      destruct (pop (steps s)) as [[top|] rest]; [|cbn; congruence];
      destruct (top =? EmptyString)%string; cbn [and_then snd];
      [cbn; congruence|]; rewrite merge_step; cbn; congruence.
  - intros d -> E. unfold emit, exec. rewrite consume_mousemove, E. now split.
Qed.

(** X3.  [consume] rewrites the end of the log only: the log before and
    after share everything but at most the last two entries of the old log,
    which at most one new entry replaces, and the entries taken away are at
    most one more than the entries put in their place.  So the log grows by
    at most one entry and shrinks by at most one entry per event. *)
Theorem consume_rewrites_only_the_tail s ev :
  (exists l old new,
      events s = l ++ old
      /\ events (snd (consume s ev)) = l ++ new
      /\ List.length old <= 2 /\ List.length new <= 1
      /\ List.length old <= S (List.length new))
  /\ List.length (events s) <= S (List.length (events (snd (consume s ev))))
  /\ List.length (events (snd (consume s ev))) <= S (List.length (events s)).
Proof.
  assert (Htail : exists l old new,
             events s = l ++ old
             /\ events (snd (consume s ev)) = l ++ new
             /\ List.length old <= 2 /\ List.length new <= 1
             /\ List.length old <= S (List.length new)).
  { destruct (consume_log s ev) as [E | Hrule].
    - exists (events s), [], []. rewrite E, app_nil_r.
      repeat split; cbn [List.length]; lia.
    - remember (events (snd (consume s ev))) as log' eqn:E'. clear E'.
      remember (events s) as log0 eqn:E0. clear E0.
      destruct Hrule as [l d0 st d|l d0 d|l d0 d _|l a b d|l d0 dx0 dy0 d dx dy _|log ev _].
      + exists l, [EMouseMove d0 st], [EMouseMove d (Some (steps_default st + 1))].
        repeat split; cbn [List.length]; lia.
      + exists l, [EMouseDown d0], [EClick d]. repeat split; cbn [List.length]; lia.
      + exists l, [EKeyDown d0], [EKeyPress d]. repeat split; cbn [List.length]; lia.
      + exists l, [EClick a; EClick b], [EDblClick d]. rewrite <- app_assoc.
        repeat split; cbn [List.length]; lia.
      + exists l, [EWheel d0 dx0 dy0],
          [EWheel d (number_add dx0 dx) (number_add dy0 dy)].
        repeat split; cbn [List.length]; lia.
      + exists log, [], [as_consumed ev]. rewrite app_nil_r.
        repeat split; cbn [List.length]; lia. }
  split; [exact Htail|].
  destruct Htail as (l & old & new & -> & -> & _ & Hnew & Hold).
  rewrite !length_app. lia.
Qed.

(** X4.  The label of a key event is the names of its set modifiers, in
    the order Alt, Ctrl, Meta, Shift and without a name that equals the key,
    then the key, joined by [+]; with no modifier set it is the key. *)
Theorem getCodegenKey_label (d : BasicKeyboardEventData) :
  getCodegenKey d
  = String.concat "+"
      (filter (fun n => negb (n =? key d)%string)
              (modifier_names (key_modifiers d))
       ++ [key d])
  /\ (key_modifiers d = no_modifiers -> getCodegenKey d = key d).
Proof.
  split.
  - unfold getCodegenKey, modifier_names.
    destruct (altKey (key_modifiers d)), (ctrlKey (key_modifiers d)),
      (metaKey (key_modifiers d)), (shiftKey (key_modifiers d)); reflexivity.
  - intros E. unfold getCodegenKey. rewrite E. reflexivity.
Qed.

(** X5.  Every entry renders to one or two lines, never to none, so
    [parse] returns at least one line per log entry and per open step, and
    at most two per log entry and one per open step. *)
Theorem parse_line_count s :
  (forall e, 1 <= List.length (render e) <= 2)
  /\ List.length (events s) + List.length (steps s) <= List.length (parse s)
  /\ List.length (parse s) <= 2 * List.length (events s) + List.length (steps s).
Proof.
  assert (Hone : forall e, 1 <= List.length (render e) <= 2).
  { intros e. destruct e as [| | | | | | | | | |[] n| |]; cbn; lia. }
  assert (Hlog : forall log,
             List.length log <= List.length (flat_map render log) <= 2 * List.length log).
  { induction log as [|e log IH]; [cbn; lia|].
    cbn [flat_map]. rewrite length_app. specialize (Hone e). cbn [List.length]. lia. }
  assert (Hends : forall k, List.length (flat_map render (repeat step_end k)) = k).
  { induction k as [|k IH]; [reflexivity|]. cbn. now rewrite IH. }
  split; [assumption|].
  unfold parse, parse_data, fill. rewrite flat_map_app, length_app, Hends.
  specialize (Hlog (events s)). lia.
Qed.

End MoreOfConsume.

(** ** Further properties of the listeners, the timer and the API *)

Section MoreOfTheSession.

Context {H : Host}.

Implicit Types (s : Codegen) (ev : RawEvent) (a : Action).

Local Arguments getCodegenKey : simpl never.

Lemma emit_keeps s ev :
  file_content (emit s ev) = file_content s
  /\ recording (emit s ev) = recording s
  /\ counter (emit s ev) = counter s
  /\ title (emit s ev) = title s
  /\ (write_pending s = true -> write_pending (emit s ev) = true).
Proof.
  destruct (consume_frame s ev) as (l & d & st & E).
  unfold emit, exec. destruct (consume s ev) as [b s']. cbn [snd] in E. subst s'.
  destruct b, ev; cbn; auto.
Qed.

(** What an action that is not the timer keeps. *)
Lemma run_keeps s a :
  a <> ADebounceFire ->
  file_content (run s a) = file_content s
  /\ title (run s a) = title s
  /\ counter s <= counter (run s a)
  /\ (write_pending s = true -> write_pending (run s a) = true).
Proof.
  intros Ha.
  assert (Hemit : forall ev,
             file_content (emit s ev) = file_content s
             /\ title (emit s ev) = title s
             /\ counter s <= counter (emit s ev)
             /\ (write_pending s = true -> write_pending (emit s ev) = true)).
  { intros ev. destruct (emit_keeps s ev) as (Hf & _ & Hc & Ht & Hp).
    rewrite Hf, Hc, Ht. auto. }
  destruct a as [e|u| | |n| |v|n|d|]; cbn [run].
  - unfold emitCodegenEvent. destruct (recording s); [apply Hemit | auto].
  - apply Hemit.
  - cbn. auto.
  - cbn. auto.
  - unfold step, assertRecording.
    destruct (recording s); cbn [negb state_after]; [apply Hemit | auto].
  - unfold endStep, assertRecording.
    destruct (recording s); cbn [negb state_after]; [apply Hemit | auto].
  - unfold comment, assertRecording.
    destruct (recording s); cbn [negb state_after]; [apply Hemit | auto].
  - unfold captureScreenshot, assertRecording.
    destruct n as [nm|]; cbn [default_name recording set_counter];
      destruct (recording s); cbn; auto.
  - apply Hemit.
  - now destruct Ha.
Qed.

Lemma debounce_fire_twice s : debounce_fire (debounce_fire s) = debounce_fire s.
Proof.
  unfold debounce_fire. destruct (write_pending s) eqn:E; [reflexivity|].
  now rewrite E.
Qed.

(** X6.  Only the debounce timer writes the file: over any sequence of
    actions none of which is the timer firing, the file keeps its contents;
    and the timer firing with no write armed changes nothing. *)
Theorem only_the_timer_writes_the_file s l :
  (Forall (fun a => a <> ADebounceFire) l ->
   file_content (run_all s l) = file_content s)
  /\ (write_pending s = false -> debounce_fire s = s).
Proof.
  split.
  - revert s. induction l as [|a l IH]; intros s Hl; [reflexivity|].
    inversion Hl as [|? ? Ha Hl']; subst. cbn [run_all fold_left].
    change (fold_left run l (run s a)) with (run_all (run s a) l).
    rewrite IH by assumption. now destruct (run_keeps s Ha).
  - intros E. unfold debounce_fire. now rewrite E.
Qed.

(** X7.  An armed write is not lost: it stays armed over any sequence of
    actions before the timer fires, and the firing then leaves in the file
    the script of the state at that moment and disarms the write; firing
    again changes nothing more. *)
Theorem armed_write_waits_for_the_timer s l :
  write_pending s = true ->
  Forall (fun a => a <> ADebounceFire) l ->
  write_pending (run_all s l) = true
  /\ file_content (debounce_fire (run_all s l)) = script_text (run_all s l)
  /\ write_pending (debounce_fire (run_all s l)) = false
  /\ debounce_fire (debounce_fire (run_all s l)) = debounce_fire (run_all s l).
Proof.
  intros Hs Hl.
  assert (Harmed : write_pending (run_all s l) = true).
  { revert s Hs. induction l as [|a l IH]; intros s Hs; [assumption|].
    inversion Hl as [|? ? Ha Hl']; subst. cbn [run_all fold_left].
    change (fold_left run l (run s a)) with (run_all (run s a) l).
    apply IH; [assumption|]. now apply (run_keeps s Ha). }
  split; [assumption|]. unfold debounce_fire at 1 2. rewrite Harmed.
  split; [reflexivity|]. split; [reflexivity|]. apply debounce_fire_twice.
Qed.

(** X8.  With [recording] on, [step] followed by [endStep] throws nothing,
    leaves the step stack and the button flag as they were, appends a start
    and an end entry to the log, and arms a write. *)
Theorem step_then_endStep s name :
  recording s = true ->
  has_thrown (step s name) = false
  /\ has_thrown (endStep (state_after (step s name))) = false
  /\ steps (state_after (endStep (state_after (step s name)))) = steps s
  /\ down (state_after (endStep (state_after (step s name)))) = down s
  /\ events (state_after (endStep (state_after (step s name))))
     = events s ++ [EStep which_start name; EStep which_end None]
  /\ write_pending (state_after (endStep (state_after (step s name)))) = true.
Proof.
  intros E.
  assert (E1 : step s name
               = Returned (debounced_write
                   (set_events (set_steps s (steps s ++ [name_or_step name]))
                      (events s ++ [EStep which_start name])))).
  { unfold step, assertRecording. rewrite E. cbn [negb].
    unfold emit, exec. now rewrite consume_step_start. }
  rewrite E1. cbn [state_after has_thrown].
  unfold endStep, assertRecording. cbn [recording debounced_write
    set_write_pending set_events set_steps]. rewrite E. cbn [negb state_after has_thrown].
  unfold emit, exec.
  erewrite consume_step_end_named
    by first [reflexivity | apply name_or_step_named].
  cbn. rewrite <- app_assoc. repeat split; reflexivity.
Qed.

(** X12.  While [recording] is false the log, the step stack, the button
    flag and the snapshots change only when a navigation arrives or a
    screenshot that was requested earlier completes; every other action
    leaves them as they are. *)
Theorem log_is_still_while_not_recording s a :
  recording s = false ->
  (forall url, a <> AFrameNavigated url) ->
  (forall d, a <> AScreenshotReady d) ->
  events (run s a) = events s /\ steps (run s a) = steps s
  /\ down (run s a) = down s /\ snapshots (run s a) = snapshots s.
Proof.
  intros E Hnav Hshot. destruct a as [e|u| | |n| |v|n|d|]; cbn [run];
    try (now destruct (Hnav u)); try (now destruct (Hshot d));
    unfold emitCodegenEvent, step, endStep, comment, captureScreenshot,
      assertRecording, debounce_fire;
    try (destruct n as [nm|]; cbn [default_name]);
    cbn [recording set_counter]; rewrite ?E; cbn [negb state_after];
    try (destruct (write_pending s)); repeat split; reflexivity.
Qed.

(** X14.  Only [startRecording] and [stopRecording] change the recording
    flag: consuming events, the API calls and the timer leave it as it is. *)
Theorem recording_changes_only_on_start_and_stop s a :
  recording (run s a)
  = match a with
    | AStartRecording => true
    | AStopRecording => false
    | _ => recording s
    end.
Proof.
  destruct a as [e|u| | |n| |v|n|d|]; cbn [run];
    unfold emitCodegenEvent, framenavigated, step, endStep, comment,
      captureScreenshot, captureScreenshot_emit, assertRecording, debounce_fire;
    try (destruct n as [nm|]; cbn [default_name]);
    cbn [recording set_counter];
    try (destruct (recording s) eqn:E); cbn [negb state_after];
    try (destruct (write_pending s));
    rewrite ?(proj1 (proj2 (emit_keeps _ _))); try reflexivity; assumption.
Qed.

End MoreOfTheSession.

(** ** Strings and decimal numbers *)

Section StringFacts.

Local Open Scope string_scope.

Lemma string_length_append (a b : string) :
  String.length (a ++ b) = String.length a + String.length b.
Proof. induction a as [|c a IH]; cbn; [reflexivity | now rewrite IH]. Qed.

Lemma string_append_cancel_l (p a b : string) : p ++ a = p ++ b -> a = b.
Proof.
  induction p as [|c p IH]; cbn; [trivial|].
  intros E. injection E as E. now apply IH.
Qed.

Lemma string_append_cancel_r (a b t : string) : a ++ t = b ++ t -> a = b.
Proof.
  revert b. induction a as [|c a IH]; intros b E.
  - destruct b as [|c' b]; [reflexivity|].
    apply (f_equal String.length) in E. cbn in E.
    rewrite string_length_append in E. lia.
  - destruct b as [|c' b].
    + apply (f_equal String.length) in E. cbn in E.
      rewrite string_length_append in E. lia.
    + cbn in E. injection E as -> E. f_equal. now apply IH.
Qed.

Lemma nat_show_injective (n m : nat) : nat_show n = nat_show m -> n = m.
Proof.
  assert (Hnil : forall k, Nat.to_uint k <> Decimal.Nil).
  { intros k E. pose proof (DecimalNat.Unsigned.of_to k) as Hk.
    rewrite E in Hk. cbn in Hk. subst k. discriminate E. }
  unfold nat_show. intros E.
  apply (f_equal NilZero.uint_of_string) in E.
  rewrite !NilZero.usu in E by apply Hnil.
  injection E as E. now apply DecimalNat.Unsigned.to_uint_inj.
Qed.

End StringFacts.

(** ** Further properties of the log: what stays in it *)

Section MoreOfTheLog.

Context {H : Host}.

Implicit Types (s : Codegen) (ev : RawEvent) (a : Action).
Implicit Types (log : list ConsumedEventData).

Local Arguments getCodegenKey : simpl never.

Lemma log_snapshots_app log1 log2 :
  log_snapshots (log1 ++ log2) = log_snapshots log1 ++ log_snapshots log2.
Proof. apply flat_map_app. Qed.

Lemma log_snapshots_as_consumed ev :
  log_snapshots [as_consumed ev] = snapshot_of ev.
Proof. now destruct ev as [[] d|d dx dy|[] d|d|w n|v|u]. Qed.

Lemma merge_rule_snapshots log ev log' :
  merge_rule log ev log' ->
  log_snapshots log' = log_snapshots log ++ snapshot_of ev.
Proof.
  intros Hrule. destruct Hrule; rewrite ?log_snapshots_app;
    [.. | now rewrite log_snapshots_as_consumed];
    cbn [log_snapshots flat_map snapshot_of app]; rewrite ?app_nil_r;
    reflexivity.
Qed.

Lemma consume_snapshots s ev :
  log_snapshots (events (snd (consume s ev)))
  = log_snapshots (events s) ++ snapshot_of ev.
Proof.
  destruct ev as [t d|d dx dy|t d|d|w n|v|u];
    try (destruct (consume_log s (RawMouse t d)) as [-> | Hrule]);
    try (destruct (consume_log s (RawWheel d dx dy)) as [-> | Hrule]);
    try (destruct (consume_log s (RawKeyboard t d)) as [-> | Hrule]);
    try (destruct (consume_log s (RawStep w n)) as [-> | Hrule]);
    try (destruct (consume_log s (RawComment v)) as [-> | Hrule]);
    try (destruct (consume_log s (RawNavigation u)) as [-> | Hrule]);
    try (now apply merge_rule_snapshots);
    try (cbn [snapshot_of]; now rewrite app_nil_r).
  rewrite consume_screenshot. cbn [snd].
  now apply merge_rule_snapshots, merge_spec.
Qed.

Lemma emit_snapshots s ev :
  snapshots s = log_snapshots (events s) ->
  snapshots (emit s ev) = log_snapshots (events (emit s ev)).
Proof.
  intros Hs. rewrite events_emit, consume_snapshots, <- Hs.
  destruct (emit_frame s ev) as (l & d & st & p & ->). reflexivity.
Qed.

(** X9.  In every state the recorder can reach, the snapshot files written
    are those of the screenshot entries of the log, one per entry and in
    the same order: no screenshot entry lacks its file and none was merged
    away. *)
Theorem snapshots_match_the_log s :
  reachable s -> snapshots s = log_snapshots (events s).
Proof.
  induction 1 as [|s a _ IH]; [reflexivity|].
  destruct a as [e|u| | |n| |v|n|d|]; cbn [run];
    unfold emitCodegenEvent, framenavigated, step, endStep, comment,
      captureScreenshot, captureScreenshot_emit, assertRecording, debounce_fire;
    try (destruct n as [nm|]; cbn [default_name]);
    cbn [recording set_counter];
    try (destruct (recording s)); cbn [negb state_after];
    try (destruct (write_pending s));
    try (now apply emit_snapshots); exact IH.
Qed.

Lemma permanent_entries_app log1 log2 :
  permanent_entries (log1 ++ log2)
  = permanent_entries log1 ++ permanent_entries log2.
Proof. apply filter_app. Qed.

Lemma merge_rule_permanent log ev log' :
  merge_rule log ev log' ->
  exists rest, permanent_entries log' = permanent_entries log ++ rest.
Proof.
  intros Hrule. destruct Hrule; rewrite ?permanent_entries_app;
    cbn [permanent_entries filter is_permanent app]; rewrite ?app_nil_r;
    try (exists []; now rewrite app_nil_r); eauto.
Qed.

(** X11.  Entries of the types the merge chain never pops (mouseup,
    dblclick, keyup, keypress, screenshot, step, comment, navigation) are
    never removed or reordered: over any sequence of actions the permanent
    entries of the old log are a prefix of those of the new one. *)
Theorem permanent_entries_only_grow s l :
  exists rest,
    permanent_entries (events (run_all s l))
    = permanent_entries (events s) ++ rest.
Proof.
  revert s. induction l as [|a l IH]; intros s.
  - exists []. cbn. now rewrite app_nil_r.
  - cbn [run_all fold_left].
    change (fold_left run l (run s a)) with (run_all (run s a) l).
    destruct (IH (run s a)) as (rest & ->).
    assert (Hstep : exists r, permanent_entries (events (run s a))
                              = permanent_entries (events s) ++ r).
    { destruct (run_log s a) as [[-> _] | (ev & -> & _)].
      - exists []. now rewrite app_nil_r.
      - destruct (consume_log s ev) as [-> | Hrule].
        + exists []. now rewrite app_nil_r.
        + now apply (merge_rule_permanent Hrule). }
    destruct Hstep as (r & ->). exists (r ++ rest). now rewrite app_assoc.
Qed.

(** X13.  A press, then N >= 1 moves, then a release, consumed in a row
    from any state, append three entries to the log: the mousedown, one
    mousemove with the fields of the last move and N-1 steps, and the
    mouseup; the button flag ends false.  With no move in between the press
    and the release append one click entry. *)
Theorem drag_is_down_move_up s d0 ds d_last d_up :
  consume_all s (RawMouse mousedown d0
                 :: map (RawMouse mousemove) (ds ++ [d_last])
                 ++ [RawMouse mouseup d_up])
  = set_events (set_down s false)
      (events s ++ [EMouseDown d0;
                    EMouseMove d_last (run_steps (List.length ds));
                    EMouseUp d_up])
  /\ consume_all s [RawMouse mousedown d0; RawMouse mouseup d_up]
     = set_events (set_down s false) (events s ++ [EClick d_up]).
Proof.
  assert (Hdown : snd (consume s (RawMouse mousedown d0))
                  = set_events (set_down s true) (events s ++ [EMouseDown d0])).
  { rewrite consume_mousedown. cbn [snd]. unfold merge.
    destruct (at_ (events (set_down s true))
                  (length_ (events (set_down s true)) - 1)); reflexivity. }
  split.
  - unfold consume_all. cbn [fold_left]. rewrite fold_left_app, Hdown.
    fold (consume_all (set_events (set_down s true) (events s ++ [EMouseDown d0]))
            (map (RawMouse mousemove) (ds ++ [d_last]))).
    rewrite consume_all_moves
      by (cbn [down events set_events set_down];
          first [reflexivity | now rewrite ends_with_move_snoc]).
    cbn [fold_left]. rewrite consume_mouseup. cbn [snd]. unfold merge.
    cbn [events set_events set_down]. rewrite at_last.
    unfold push. cbn [as_consumed]. rewrite <- !app_assoc. reflexivity.
  - unfold consume_all. cbn [fold_left]. rewrite Hdown, consume_mouseup.
    cbn [snd]. unfold merge. cbn [events set_events set_down].
    now rewrite at_last, pop_snoc.
Qed.

(** X10.  The default name of a screenshot taken without a name differs
    from the default name of every later one of the same recorder, whatever
    happens in between: the counter in the name only grows, also when a
    call throws. *)
Theorem default_names_never_repeat s l :
  fst (default_name s None)
  <> fst (default_name (run_all s (ACaptureScreenshot None :: l)) None).
Proof.
  assert (Hgrow : forall l' s', title (run_all s' l') = title s'
                                /\ counter s' <= counter (run_all s' l')).
  { induction l' as [|a l' IH]; intros s'; [split; [reflexivity | apply le_n]|].
    cbn [run_all fold_left].
    change (fold_left run l' (run s' a)) with (run_all (run s' a) l').
    destruct (IH (run s' a)) as [-> Hc].
    assert (Ha : title (run s' a) = title s' /\ counter s' <= counter (run s' a)).
    { assert (Hk : a <> ADebounceFire ->
                   title (run s' a) = title s' /\ counter s' <= counter (run s' a)).
      { intros Hne. destruct (@run_keeps _ s' a Hne) as (_ & Ht & Hle & _).
        now split. }
      destruct a; try (apply Hk; discriminate).
      cbn [run]. unfold debounce_fire.
      destruct (write_pending s'); split; reflexivity || apply le_n. }
    destruct Ha as [-> Ha]. split; [reflexivity | lia]. }
  cbn [run_all fold_left].
  change (fold_left run l (run s (ACaptureScreenshot None)))
    with (run_all (run s (ACaptureScreenshot None)) l).
  destruct (Hgrow l (run s (ACaptureScreenshot None))) as [Ht Hc].
  assert (Hfirst : title (run s (ACaptureScreenshot None)) = title s
                   /\ counter (run s (ACaptureScreenshot None)) = S (counter s)).
  { cbn [run]. unfold captureScreenshot, assertRecording.
    cbn [default_name recording set_counter]. destruct (recording s); now cbn. }
  destruct Hfirst as [Ht' Hc']. rewrite Ht' in Ht. rewrite Hc' in Hc.
  cbn [default_name fst]. rewrite Ht. intros E.
  apply string_append_cancel_l in E. apply string_append_cancel_l in E.
  apply string_append_cancel_r in E. apply nat_show_injective in E. lia.
Qed.

End MoreOfTheLog.

(** ** The further properties on concrete recordings *)

Lemma keypress_witness :
  consume (Sample.feed [RawKeyboard keydown (Sample.key_event "a" false)])
          (RawKeyboard keyup (Sample.key_event "a" false))
  = (true,
     set_events (Sample.feed [RawKeyboard keydown (Sample.key_event "a" false)])
       ([] ++ [EKeyPress (Sample.key_event "a" false)])).
Proof.
  apply (proj1 (keyup_after_keydown_is_keypress
                  (Sample.feed [RawKeyboard keydown (Sample.key_event "a" false)])
                  [] (Sample.key_event "a" false) (Sample.key_event "a" false)
                  eq_refl)).
  reflexivity.
Defined.

(** Shift held when the key goes down and released before it comes up: the
    labels differ and no keypress is made. *)
Example keyup_with_other_label :
  events (Sample.feed [RawKeyboard keydown (Sample.key_event "a" true);
                       RawKeyboard keyup (Sample.key_event "a" false)])
  = [EKeyDown (Sample.key_event "a" true); EKeyUp (Sample.key_event "a" false)]
  /\ getCodegenKey (Sample.key_event "a" true) = "Shift+a"
  /\ getCodegenKey (Sample.key_event "Shift" true) = "Shift".
Proof. repeat split. Qed.

Lemma drag_filter_witness :
  consume Sample.started (Sample.mouse mousemove 3 3) = (false, Sample.started)
  /\ emit Sample.started (Sample.mouse mousemove 3 3) = Sample.started.
Proof.
  apply (proj2 (button_flag_follows_the_mouse Sample.started
                  (Sample.mouse mousemove 3 3)) (Sample.at_point 3 3));
    reflexivity.
Defined.

Lemma plain_key_witness :
  getCodegenKey (Sample.key_event "Delete" false) = "Delete".
Proof.
  apply (proj2 (getCodegenKey_label (Sample.key_event "Delete" false))).
  reflexivity.
Defined.

Lemma timer_witness :
  file_content (run_all Sample.commented
                  [AStopRecording; AFrameNavigated "u"; AStartRecording])
  = file_content Sample.commented.
Proof.
  apply (proj1 (only_the_timer_writes_the_file Sample.commented
                  [AStopRecording; AFrameNavigated "u"; AStartRecording])).
  repeat constructor; discriminate.
Defined.

Lemma armed_write_witness :
  write_pending (run_all Sample.commented [AStopRecording; AComment "y"]) = true
  /\ file_content (debounce_fire (run_all Sample.commented [AStopRecording; AComment "y"]))
     = script_text (run_all Sample.commented [AStopRecording; AComment "y"])
  /\ write_pending (debounce_fire (run_all Sample.commented [AStopRecording; AComment "y"]))
     = false
  /\ debounce_fire (debounce_fire (run_all Sample.commented [AStopRecording; AComment "y"]))
     = debounce_fire (run_all Sample.commented [AStopRecording; AComment "y"]).
Proof.
  apply (@armed_write_waits_for_the_timer ZHost Sample.commented
           [AStopRecording; AComment "y"]).
  - reflexivity.
  - repeat constructor; discriminate.
Defined.

Lemma step_round_trip_witness :
  has_thrown (step Sample.started (Some "a")) = false
  /\ has_thrown (endStep (state_after (step Sample.started (Some "a")))) = false
  /\ steps (state_after (endStep (state_after (step Sample.started (Some "a")))))
     = steps Sample.started
  /\ down (state_after (endStep (state_after (step Sample.started (Some "a")))))
     = down Sample.started
  /\ events (state_after (endStep (state_after (step Sample.started (Some "a")))))
     = events Sample.started ++ [EStep which_start (Some "a"); EStep which_end None]
  /\ write_pending (state_after (endStep (state_after (step Sample.started (Some "a")))))
     = true.
Proof.
  apply (step_then_endStep Sample.started (Some "a")). reflexivity.
Defined.

Lemma snapshots_witness :
  snapshots Sample.with_shots = log_snapshots (events Sample.with_shots).
Proof.
  apply (@snapshots_match_the_log ZHost Sample.with_shots).
  unfold Sample.with_shots, Sample.fresh. apply reachable_run_all, reachable_new.
Defined.

Example with_shots_snapshots :
  snapshots Sample.with_shots
  = [("a.png", [137; 80; 78; 71]); ("b.png", [137; 80; 78; 71])]
  /\ List.length (events Sample.with_shots) = 5.
Proof. split; reflexivity. Qed.

Lemma still_log_witness :
  events (run Sample.fresh (AEmitCodegenEvent (Sample.mouse mousedown 1 1)))
  = events Sample.fresh
  /\ steps (run Sample.fresh (AEmitCodegenEvent (Sample.mouse mousedown 1 1)))
     = steps Sample.fresh
  /\ down (run Sample.fresh (AEmitCodegenEvent (Sample.mouse mousedown 1 1)))
     = down Sample.fresh
  /\ snapshots (run Sample.fresh (AEmitCodegenEvent (Sample.mouse mousedown 1 1)))
     = snapshots Sample.fresh.
Proof.
  apply (@log_is_still_while_not_recording ZHost Sample.fresh
           (AEmitCodegenEvent (Sample.mouse mousedown 1 1)));
    [reflexivity | discriminate | discriminate].
Defined.
